(** * sync.py: whitelist filtering, version resolution, changelog and
      release orchestration of the MAMBA sync tool.

    The development embeds the functions of [sync.py] as Rocq functions.
    Python strings are [string]; exceptions and [sys.exit] are explicit
    outcomes; the file system, the settings file and the external commands
    are explicit state. *)

From Stdlib Require Import String Ascii List Bool Arith Lia.
Import ListNotations.
Open Scope list_scope.
Open Scope string_scope.

(* ================================================================== *)
(** ** Python string operations used by the script                     *)
(* ================================================================== *)

Module PyStr.

(** [s.startswith(p)] *)
Definition startswith (p s : string) : bool := String.prefix p s.

(** [s.endswith(p)]: some tail of [s] is [p]. *)
Fixpoint endswith (p s : string) : bool :=
  (s =? p) ||
  match s with
  | EmptyString => false
  | String _ s' => endswith p s'
  end.

(** [sub in s] *)
Fixpoint contains (sub s : string) : bool :=
  String.prefix sub s ||
  match s with
  | EmptyString => false
  | String _ s' => contains sub s'
  end.

(** [s[:-1]] *)
Fixpoint drop_last (s : string) : string :=
  match s with
  | EmptyString => EmptyString
  | String c s' =>
      match s' with
      | EmptyString => EmptyString
      | String _ _ => String c (drop_last s')
      end
  end.

(** [s.replace(a, b)] for single characters [a], [b]. *)
Fixpoint replace_char (a b : ascii) (s : string) : string :=
  match s with
  | EmptyString => EmptyString
  | String c s' =>
      String (if Ascii.eqb c a then b else c) (replace_char a b s')
  end.

(** Scanning loop of [s.replace(old, new)] for a non-empty [old]:
    [skip] counts the characters of the occurrence just replaced that
    are still to be jumped over. *)
Fixpoint replace_from (old new : string) (skip : nat) (s : string) : string :=
  match s with
  | EmptyString => EmptyString
  | String c s' =>
      match skip with
      | S k => replace_from old new k s'
      | O =>
          if String.prefix old s
          then new ++ replace_from old new (String.length old - 1) s'
          else String c (replace_from old new O s')
      end
  end.

(** With an empty [old] Python puts [new] before every character and at
    the end. *)
Fixpoint intersperse (new s : string) : string :=
  match s with
  | EmptyString => new
  | String c s' => new ++ String c (intersperse new s')
  end.

(** [s.replace(old, new)]: every non-overlapping occurrence, left to
    right. *)
Definition replace (old new s : string) : string :=
  match old with
  | EmptyString => intersperse new s
  | String _ _ => replace_from old new O s
  end.

(** Number of positions of [s] at which [sub] occurs. *)
Fixpoint occurrences (sub s : string) : nat :=
  (if String.prefix sub s then 1 else 0) +
  match s with
  | EmptyString => 0
  | String _ s' => occurrences sub s'
  end.

(** [c.isspace()] on the ASCII range: tab, LF, VT, FF, CR, the four
    separators 0x1c-0x1f and the space. *)
Definition is_space (c : ascii) : bool :=
  let n := nat_of_ascii c in
  (((9 <=? n) && (n <=? 13)) || ((28 <=? n) && (n <=? 32)))%nat.

Fixpoint lstrip (s : string) : string :=
  match s with
  | EmptyString => EmptyString
  | String c s' => if is_space c then lstrip s' else s
  end.

Fixpoint rstrip (s : string) : string :=
  match s with
  | EmptyString => EmptyString
  | String c s' =>
      let r := rstrip s' in
      if is_space c && (r =? EmptyString) then EmptyString else String c r
  end.

(** [s.strip()] *)
Definition strip (s : string) : string := rstrip (lstrip s).

(** Loop of [s.split(sep)] for a one-character separator; [cur] is the
    field being read, reversed. *)
Fixpoint split_from (sep : ascii) (cur : string) (s : string) : list string :=
  match s with
  | EmptyString => [cur]
  | String c s' =>
      if Ascii.eqb c sep
      then cur :: split_from sep EmptyString s'
      else split_from sep (cur ++ String c EmptyString) s'
  end.

(** [s.split(sep)] *)
Definition split (sep : ascii) (s : string) : list string :=
  split_from sep EmptyString s.

(** [bool(s)]: a string is truthy when it is not empty. *)
Definition truthy (s : string) : bool :=
  match s with EmptyString => false | String _ _ => true end.

End PyStr.


(* ================================================================== *)
(** ** A fragment of Python's [re]                                     *)
(* ================================================================== *)

(** The script calls [re.match(pattern, name)] and only uses the
    truthiness of the result.  The general theorems below are stated for
    an arbitrary engine; this module gives an executable engine for the
    fragment of the pattern syntax made of literals, [.], [^], [$],
    escapes, the classes [\d \w \s \D \W \S], groups, [|] and the
    quantifiers [* + ?] (greedy or lazy), which the examples use.
    [compile] tells apart the patterns Python rejects with [re.error]
    ([Malformed]) from the ones outside the fragment ([Unsupported]). *)

Module Re.

Inductive cset : Type :=
| CAny                      (* [.]: any character but a newline *)
| CLit (c : ascii)
| CDigit
| CWord
| CSpace
| CNot (t : cset).

Inductive regex : Type :=
| Eps
| Chr (t : cset)
| Bol                       (* [^] *)
| Eol                       (* [$] *)
| Seq (r1 r2 : regex)
| Alt (r1 r2 : regex)
| Star (r : regex)
| Plus (r : regex)
| Opt (r : regex).

Definition newline : ascii := ascii_of_nat 10.

Definition is_digit (c : ascii) : bool :=
  let n := nat_of_ascii c in ((48 <=? n) && (n <=? 57))%nat.

Definition is_alpha (c : ascii) : bool :=
  let n := nat_of_ascii c in
  (((65 <=? n) && (n <=? 90)) || ((97 <=? n) && (n <=? 122)))%nat.

Fixpoint accepts (t : cset) (c : ascii) : bool :=
  match t with
  | CAny => negb (Ascii.eqb c newline)
  | CLit d => Ascii.eqb c d
  | CDigit => is_digit c
  | CWord => is_alpha c || is_digit c || Ascii.eqb c "_"%char
  | CSpace => PyStr.is_space c
  | CNot t' => negb (accepts t' c)
  end.

(** A position in the subject: whether it is the start of the subject,
    and what is left to read. *)
Definition pos : Type := bool * string.

Definition at_end (rest : string) : bool :=
  match rest with
  | EmptyString => true
  | String c EmptyString => Ascii.eqb c newline
  | String _ (String _ _) => false
  end.

(** All the positions at which a match of [r] started at [p] can end. *)
Fixpoint run (r : regex) (p : pos) : list pos :=
  match r with
  | Eps => [p]
  | Chr t =>
      match snd p with
      | EmptyString => []
      | String c rest => if accepts t c then [(false, rest)] else []
      end
  | Bol => if fst p then [p] else []
  | Eol => if at_end (snd p) then [p] else []
  | Seq r1 r2 => flat_map (run r2) (run r1 p)
  | Alt r1 r2 => (run r1 p ++ run r2 p)%list
  | Star r' =>
      (fix loop (n : nat) (q : pos) {struct n} : list pos :=
         q :: match n with
              | O => []
              | S n' =>
                  flat_map
                    (fun q' =>
                       if (String.length (snd q') <? String.length (snd q))%nat
                       then loop n' q' else [])
                    (run r' q)
              end) (String.length (snd p)) p
  | Plus r' =>
      flat_map
        (fun p1 =>
           (fix loop (n : nat) (q : pos) {struct n} : list pos :=
              q :: match n with
                   | O => []
                   | S n' =>
                       flat_map
                         (fun q' =>
                            if (String.length (snd q') <? String.length (snd q))%nat
                            then loop n' q' else [])
                         (run r' q)
                   end) (String.length (snd p1)) p1)
        (run r' p)
  | Opt r' => (run r' p ++ [p])%list
  end.

Inductive parsed (A : Type) : Type :=
| POk (a : A)
| PMalformed
| PUnsupported.
Arguments POk {A} a.
Arguments PMalformed {A}.
Arguments PUnsupported {A}.

Definition is_quantifier (c : ascii) : bool :=
  Ascii.eqb c "*"%char || Ascii.eqb c "+"%char || Ascii.eqb c "?"%char.

(** The character after a backslash. *)
Definition parse_escape (c : ascii) : parsed regex :=
  if Ascii.eqb c "d"%char then POk (Chr CDigit)
  else if Ascii.eqb c "D"%char then POk (Chr (CNot CDigit))
  else if Ascii.eqb c "w"%char then POk (Chr CWord)
  else if Ascii.eqb c "W"%char then POk (Chr (CNot CWord))
  else if Ascii.eqb c "s"%char then POk (Chr CSpace)
  else if Ascii.eqb c "S"%char then POk (Chr (CNot CSpace))
  else if is_alpha c || is_digit c then PUnsupported
  else POk (Chr (CLit c)).

(** The quantifier, if any, that follows an atom [r]. *)
Definition parse_quantifier (r : regex) (s : string) : parsed (regex * string) :=
  match s with
  | String q rest =>
      if is_quantifier q then
        match r with
        | Bol | Eol => PMalformed            (* nothing to repeat *)
        | _ =>
            let r' := if Ascii.eqb q "*"%char then Star r
                      else if Ascii.eqb q "+"%char then Plus r
                      else Opt r in
            let rest' := match rest with
                         | String "?"%char rest2 => rest2   (* lazy *)
                         | _ => rest
                         end in
            match rest' with
            | String q2 _ =>
                if Ascii.eqb q2 "+"%char then
                  match rest with
                  | String "?"%char _ => PMalformed
                  | _ => PUnsupported          (* possessive *)
                  end
                else if is_quantifier q2 then PMalformed  (* multiple repeat *)
                else POk (r', rest')
            | EmptyString => POk (r', rest')
            end
        end
      else POk (r, s)
  | EmptyString => POk (r, s)
  end.

Fixpoint parse_alt (fuel : nat) (s : string) {struct fuel} : parsed (regex * string) :=
  match fuel with
  | O => PUnsupported
  | S n =>
      match parse_seq n s with
      | POk (r1, String "|"%char rest) =>
          match parse_alt n rest with
          | POk (r2, rest2) => POk (Alt r1 r2, rest2)
          | e => e
          end
      | other => other
      end
  end
with parse_seq (fuel : nat) (s : string) {struct fuel} : parsed (regex * string) :=
  match fuel with
  | O => PUnsupported
  | S n =>
      match s with
      | EmptyString => POk (Eps, s)
      | String c _ =>
          if Ascii.eqb c "|"%char || Ascii.eqb c ")"%char then POk (Eps, s)
          else
            match parse_atom n s with
            | POk (a, rest) =>
                match parse_quantifier a rest with
                | POk (r1, rest1) =>
                    match parse_seq n rest1 with
                    | POk (r2, rest2) => POk (Seq r1 r2, rest2)
                    | e => e
                    end
                | e => e
                end
            | e => e
            end
      end
  end
with parse_atom (fuel : nat) (s : string) {struct fuel} : parsed (regex * string) :=
  match fuel with
  | O => PUnsupported
  | S n =>
      match s with
      | EmptyString => PMalformed
      | String c rest =>
          if Ascii.eqb c "("%char then
            match rest with
            | String "?"%char _ => PUnsupported      (* extension group *)
            | _ =>
                match parse_alt n rest with
                | POk (r, String ")"%char rest') => POk (r, rest')
                | POk _ => PMalformed                (* missing ) *)
                | e => e
                end
            end
          else if Ascii.eqb c "\"%char then
            match rest with
            | EmptyString => PMalformed              (* bad escape *)
            | String e rest' =>
                match parse_escape e with
                | POk r => POk (r, rest')
                | PMalformed => PMalformed
                | PUnsupported => PUnsupported
                end
            end
          else if Ascii.eqb c "."%char then POk (Chr CAny, rest)
          else if Ascii.eqb c "^"%char then POk (Bol, rest)
          else if Ascii.eqb c "$"%char then POk (Eol, rest)
          else if is_quantifier c then PMalformed    (* nothing to repeat *)
          else if Ascii.eqb c "["%char || Ascii.eqb c "{"%char then PUnsupported
          else POk (Chr (CLit c), rest)
      end
  end.

Inductive compiled : Type :=
| Compiled (r : regex)
| Malformed
| Unsupported.

(** [re.compile(pattern)] *)
Definition compile (pattern : string) : compiled :=
  match parse_alt (3 * String.length pattern + 3) pattern with
  | POk (r, EmptyString) => Compiled r
  | POk (_, String _ _) => Malformed                 (* unbalanced ) *)
  | PMalformed => Malformed
  | PUnsupported => Unsupported
  end.

(** Truthiness of [re.match(pattern, s)]; [None] when the call raises
    [re.error] (or the pattern is outside the fragment). *)
Definition re_match (pattern s : string) : option bool :=
  match compile pattern with
  | Compiled r =>
      Some (match run r (true, s) with [] => false | _ :: _ => true end)
  | Malformed | Unsupported => None
  end.

End Re.


(* ================================================================== *)
(** ** Outcomes of a Python call                                       *)
(* ================================================================== *)

Inductive exn : Type :=
| ReError (pattern : string)        (* re.error, raised by re.match *)
| OSError (path : string)           (* I/O or permission error *)
| TypeError                         (* an operation applied to None *)
| FormatError (template : string)   (* KeyError, IndexError or ValueError of str.format *)
| AttributeError (name : string).   (* a function the platform does not have *)

Inductive result (A : Type) : Type :=
| Ok (a : A)
| Raise (e : exn).
Arguments Ok {A} a.
Arguments Raise {A} e.

(* ================================================================== *)
(** ** Settings                                                        *)
(* ================================================================== *)

(** The [defaults] of [load_and_sync_config] that the modelled functions
    read. *)
Definition default_ReleaseWhiteList : string :=
  "Plugin/, manifest.xml, .gitignore, LICENSE, CHANGELOG.md, .*\.csproj$, .*\.sln$, .*\.md$".

(** [RELEASE_WHITELIST = [item.strip() for item in
    cfg.get('ReleaseWhiteList').split(',')]] *)
Definition RELEASE_WHITELIST (ReleaseWhiteList : string) : list string :=
  map PyStr.strip (PyStr.split ","%char ReleaseWhiteList).


(* ================================================================== *)
(** ** The archiver: [create_backup]                                   *)
(* ================================================================== *)

(** A regular file met by [os.walk(script_dir)]: the directories between
    [script_dir] and the file, its name, and whether it can be read. *)
Record walked : Type := mk_walked {
  w_dirs : list string;
  w_file : string;
  w_readable : bool
}.

(** [os.path.relpath(os.path.join(root, file), script_dir)], with [sep]
    the separator of the platform. *)
Fixpoint join_path (sep : ascii) (dirs : list string) (file : string) : string :=
  match dirs with
  | [] => file
  | d :: ds => d ++ String sep (join_path sep ds file)
  end.

Definition rel_path (sep : ascii) (f : walked) : string :=
  join_path sep (w_dirs f) (w_file f).

(** [match_path = rel_path.replace('\\', '/')] *)
Definition match_path (sep : ascii) (f : walked) : string :=
  PyStr.replace_char "\"%char "/"%char (rel_path sep f).

Section Whitelist.

(** Truthiness of [re.match(pattern, s)]; [None] when it raises. *)
Variable re_match : string -> string -> option bool.

(** The test of one rule at line 179. *)
Definition zip_rule_matches (mpath file p : string) : bool :=
  let pattern := PyStr.strip p in
  (PyStr.endswith "/" pattern && PyStr.startswith pattern mpath)
  || match re_match pattern file with Some true => true | _ => false end.

(** The loop of lines 177-180; [allowed] is its result. *)
Fixpoint zip_rules_loop (rules : list string) (mpath file : string) : result bool :=
  match rules with
  | [] => Ok false
  | p :: ps =>
      let pattern := PyStr.strip p in
      if PyStr.endswith "/" pattern && PyStr.startswith pattern mpath
      then Ok true
      else
        match re_match pattern file with
        | None => Raise (ReError pattern)
        | Some true => Ok true
        | Some false => zip_rules_loop ps mpath file
        end
  end.

(** The whitelist filter of lines 173-181: [Ok true] when the file goes
    on to [zipf.write], [Ok false] when a [continue] is taken. *)
Definition zip_filter (rules : list string) (sep : ascii) (f : walked) : result bool :=
  let mpath := match_path sep f in
  if PyStr.contains ".git" mpath then Ok false
  else zip_rules_loop rules mpath (w_file f).

(** The body of the [with] block, lines 168-182: the members written so
    far and how the walk ends. *)
Fixpoint walk_loop (name type_label : string) (rules : list string)
         (sep : ascii) (files : list walked) (members : list string)
  : list string * result unit :=
  match files with
  | [] => (members, Ok tt)
  | f :: fs =>
      if w_file f =? name then walk_loop name type_label rules sep fs members
      else
        match (if type_label =? "LOCAL_ZIP" then zip_filter rules sep f
               else Ok true) with
        | Raise e => (members, Raise e)
        | Ok false => walk_loop name type_label rules sep fs members
        | Ok true =>
            if w_readable f
            then walk_loop name type_label rules sep fs
                           (members ++ [rel_path sep f])%list
            else (members, Raise (OSError (rel_path sep f)))
        end
  end.

(** What [create_backup] leaves behind: the file at [zip_path] ([None]
    when there is none, else the names given to [zipf.write] for the
    members of the archive) and the line it logs. *)
Record backup_state : Type := mk_backup {
  zip_file : option (list string);
  logged : string * string          (* level, message *)
}.

(** [create_backup]: [name] is the archive name of lines 155-163,
    [files] what [os.walk] yields, [before] the file at [zip_path]
    before the call and [can_create] whether [zipfile.ZipFile(zip_path,
    'w')] succeeds.  Leaving the [with] block closes the archive, also
    when an exception passes through it. *)
Definition create_backup (name type_label : string) (rules : list string)
           (sep : ascii) (files : list walked)
           (before : option (list string)) (can_create : bool) : backup_state :=
  if can_create then
    match walk_loop name type_label rules sep files [] with
    | (members, Ok _) => mk_backup (Some members) ("INFO", "Archive SUCCESS")
    | (members, Raise _) => mk_backup (Some members) ("ERROR", "Archive FAILED")
    end
  else mk_backup before ("ERROR", "Archive FAILED").

End Whitelist.

(* ================================================================== *)
(** ** In-place whitelist of the release flattening: [apply_whitelist] *)
(* ================================================================== *)

(** An entry of the working tree, with what is below it. *)
#[warnings="-register-all"]
Inductive tree : Type :=
| File (name : string)
| Dir (name : string) (children : list tree).

Definition entry_name (t : tree) : string :=
  match t with
  | File n => n
  | Dir n _ => n
  end.

(** Line 205: the entries that are stepped over. *)
Definition is_protected (item : string) : bool :=
  (item =? ".git") || ((item =? "sync.py") || (item =? "config_sync.ini")).

Section ApplyWhitelist.

Variable re_match : string -> string -> option bool.

(** The test of one rule at line 208. *)
Definition tree_rule_matches (item p : string) : bool :=
  (PyStr.endswith "/" p && (item =? PyStr.drop_last p))
  || match re_match p item with Some true => true | _ => false end.

(** The loop of lines 207-209. *)
Fixpoint tree_rules_loop (rules : list string) (item : string) : result bool :=
  match rules with
  | [] => Ok false
  | p :: ps =>
      if PyStr.endswith "/" p && (item =? PyStr.drop_last p) then Ok true
      else
        match re_match p item with
        | None => Raise (ReError p)
        | Some true => Ok true
        | Some false => tree_rules_loop ps item
        end
  end.

(** [apply_whitelist] over the entries [os.listdir(".")] names: the
    working tree it leaves and how it ends.  [shutil.rmtree] and
    [os.remove] are taken to succeed. *)
Fixpoint apply_whitelist (rules : list string) (items : list tree)
  : list tree * result unit :=
  match items with
  | [] => ([], Ok tt)
  | t :: ts =>
      if is_protected (entry_name t) then
        let (kept, r) := apply_whitelist rules ts in (t :: kept, r)
      else
        match tree_rules_loop rules (entry_name t) with
        | Raise e => (t :: ts, Raise e)
        | Ok true =>
            let (kept, r) := apply_whitelist rules ts in (t :: kept, r)
        | Ok false => apply_whitelist rules ts
        end
  end.

End ApplyWhitelist.

(* ================================================================== *)
(** ** The changelog: [generate_changelog]                             *)
(* ================================================================== *)

Definition nl : string := String (ascii_of_nat 10) EmptyString.

(** ["# Changelog\n\n"] *)
Definition changelog_title : string := "# Changelog" ++ nl ++ nl.

(** [f"## [{version}]"] *)
Definition section_header (version : string) : string :=
  "## [" ++ version ++ "]".

(** [entry], line 191; [date] is [datetime.now().strftime('%Y-%m-%d')]. *)
Definition changelog_entry (version date commits : string) : string :=
  section_header version ++ " - " ++ date ++ nl ++ commits ++ nl ++ nl.

(** [content], lines 192-194; [doc] is the file at [CHANGELOG_PATH],
    [None] when it does not exist. *)
Definition changelog_content (doc : option string) : string :=
  match doc with
  | Some text => text
  | None => changelog_title
  end.

(** Lines 195-197: what is written to [CHANGELOG_PATH], if anything. *)
Definition changelog_write (version date commits : string) (doc : option string)
  : option string :=
  let entry := changelog_entry version date commits in
  let content := changelog_content doc in
  if negb (PyStr.contains (section_header version) content)
  then Some (PyStr.replace changelog_title (changelog_title ++ entry) content)
  else None.

(** The file at [CHANGELOG_PATH] after [generate_changelog]. *)
Definition changelog_after (version date commits : string) (doc : option string)
  : option string :=
  match changelog_write version date commits doc with
  | Some text => Some text
  | None => doc
  end.

(** [commits], line 190, from the output of [git log]. *)
Definition commits_of (log_stdout : string) : string :=
  let out := PyStr.strip log_stdout in
  if PyStr.truthy out then out else "- General updates.".

(* ================================================================== *)
(** ** The version: [get_project_version]                              *)
(* ================================================================== *)

(** The options of the [SETTINGS] section. *)
Record settings : Type := mk_settings {
  LocalFolderName : string;
  RemoteProjectName : string;
  DefaultVersion : string;
  DevRemote : string;
  ReleaseRemote : string;
  DevBranch : string;
  ReleaseBranch : string;
  ManifestPath : string;
  ReadmePath : string;
  ChangelogPath : string;
  ReleaseWhiteList : string;
  BackupFormat : string
}.

(** [config.set('SETTINGS', 'DefaultVersion', v)]; the interpolation of
    [%] by [configparser] is not modelled. *)
Definition set_DefaultVersion (c : settings) (v : string) : settings :=
  mk_settings (LocalFolderName c) (RemoteProjectName c) v (DevRemote c)
              (ReleaseRemote c) (DevBranch c) (ReleaseBranch c)
              (ManifestPath c) (ReadmePath c) (ChangelogPath c)
              (ReleaseWhiteList c) (BackupFormat c).

(** What lines 101-106 meet at [MANIFEST_PATH]. *)
Inductive manifest : Type :=
| ManifestMissing                     (* os.path.exists is false *)
| ManifestUnparsable                  (* ET.parse raises *)
| ManifestNoVersion                   (* find('Version') is None *)
| ManifestVersion (text : option string).   (* node.text *)

(** [current_ver] after lines 100-106; the bare [except] swallows the
    parse error and the [AttributeError] of [None.strip()]. *)
Definition manifest_version (m : manifest) : option string :=
  match m with
  | ManifestVersion (Some text) => Some (PyStr.strip text)
  | ManifestVersion None => None
  | ManifestMissing | ManifestUnparsable | ManifestNoVersion => None
  end.

(** [current_ver] after lines 108-109; [cfg] is the section loaded at
    start-up. *)
Definition resolved_version (m : manifest) (cfg : settings) : string :=
  match manifest_version m with
  | Some v => if PyStr.truthy v then v else DefaultVersion cfg
  | None => DefaultVersion cfg
  end.

(** [get_project_version]: [typed] is the line [input] returns when the
    operator is asked, [stored] the settings file.  The result is the
    version and the settings file written back. *)
Definition get_project_version (auto_yes : bool) (m : manifest) (cfg : settings)
           (typed : string) (stored : settings) : string * settings :=
  let current_ver := resolved_version m cfg in
  let current_ver :=
    if negb auto_yes then
      let user_input := PyStr.strip typed in
      if PyStr.truthy user_input then user_input else current_ver
    else current_ver in
  (current_ver, set_DefaultVersion stored current_ver).

(* ================================================================== *)
(** ** The process and its environment                                 *)
(* ================================================================== *)

(** What [subprocess.run(..., capture_output=True)] returns. *)
Record cmd_result : Type := mk_cmd_result {
  returncode : nat;
  stdout : string;
  stderr : string
}.

(** What the process does to the outside, in order. *)
Inductive event : Type :=
| Ran (cmd : string) (rc : nat)             (* subprocess.run *)
| Logged (level message : string)           (* log_and_print *)
| Printed (message : string)                (* print *)
| Asked (prompt : string)                   (* input *)
| WroteFile (path content : string)
| WroteSettings (s : settings)
| TreeLeft (kept : list tree)               (* working tree after apply_whitelist *)
| Archived (destination name : string) (zip : option (list string))
| Started (argv : list string)              (* subprocess.run(argv, shell=True) *)
| OpenedLog.                                (* os.startfile(log_path) *)

(** What the outside answers; every answer may depend on what happened
    before. *)
Record environment : Type := mk_environment {
  sh : list event -> string -> cmd_result;
  cwd_basename : string;                    (* os.path.basename(os.getcwd()) *)
  read_file : list event -> string -> option string;   (* None: no such file *)
  listdir : list event -> list tree;        (* entries of "." *)
  walk : list event -> list walked;         (* os.walk(script_dir) *)
  zip_before : list event -> option (list string);
  can_create_zip : list event -> bool;
  now_date : list event -> string;          (* strftime("%Y-%m-%d") *)
  now_time : list event -> string;          (* strftime("%H%M%S") *)
  manifest_at : list event -> manifest;
  typed : list event -> string;             (* the line read by input *)
  stored_settings : list event -> settings; (* config_sync.ini *)
  path_sep : ascii;                         (* os.sep *)
  path_exists : list event -> string -> bool;   (* os.path.exists *)
  has_startfile : bool                      (* os.startfile is defined: Windows *)
}.

(** How a call ends: it returns, [sys.exit] is called, or an exception
    is not caught. *)
Inductive outcome (A : Type) : Type :=
| Normal (a : A)
| Exit (code : nat)
| Uncaught (e : exn).
Arguments Normal {A} a.
Arguments Exit {A} code.
Arguments Uncaught {A} e.

(** A computation reads the history, extends it and ends. *)
Definition proc (A : Type) : Type := list event -> list event * outcome A.

Definition ret {A : Type} (a : A) : proc A := fun h => (h, Normal a).

Definition bind {A B : Type} (m : proc A) (k : A -> proc B) : proc B :=
  fun h =>
    match m h with
    | (h', Normal a) => k a h'
    | (h', Exit code) => (h', Exit code)
    | (h', Uncaught e) => (h', Uncaught e)
    end.

Notation "x <- m ;; k" := (bind m (fun x => k))
  (at level 61, m at next level, right associativity).
Notation "m ;; k" := (bind m (fun _ => k))
  (at level 61, right associativity).

Definition emit (e : event) : proc unit := fun h => ((h ++ [e])%list, Normal tt).
Definition ask {A : Type} (f : list event -> A) : proc A := fun h => (h, Normal (f h)).
Definition sys_exit {A : Type} (code : nat) : proc A := fun h => (h, Exit code).
Definition raise {A : Type} (e : exn) : proc A := fun h => (h, Uncaught e).

(** The commands run so far, with their return codes. *)
Fixpoint commands (h : list event) : list (string * nat) :=
  match h with
  | [] => []
  | Ran cmd rc :: h' => (cmd, rc) :: commands h'
  | _ :: h' => commands h'
  end.

Definition dq : string := String (ascii_of_nat 34) EmptyString.

(** The fields [str.format] is given at lines 155-163. *)
Record name_fields : Type := mk_name_fields {
  nf_date : string;
  nf_time : string;
  nf_type : string;
  nf_project : string;
  nf_remote : string;
  nf_version : string;
  nf_branch : string
}.

(** The flags of the command line. *)
Record arguments : Type := mk_arguments {
  arg_deploy : bool;
  arg_update : bool;
  arg_full_backup : bool;
  arg_zip : bool;
  arg_yes : bool;
  arg_open : bool
}.

Section Script.

Variable re_match : string -> string -> option bool.
(** [re.sub(pattern, repl, s)].  Both patterns are literals of the
    script; a replacement that [re] refuses (a version that holds a
    backslash, line 223) is not modelled. *)
Variable re_sub : string -> string -> string -> string.
(** [template.format] applied to the fields; [None] when it raises
    (a field the call does not give, a brace that is not closed). *)
Variable format_name : string -> name_fields -> option string.
(** [VS_CODE_PATH = cfg.get('VSCodePath')], line 91. *)
Variable VS_CODE_PATH : string.
(** [log_path = os.path.abspath(LOG_FILE_PATH)], line 299. *)
Variable log_path : string.

Variable env : environment.
(** [cfg], the section returned by [load_and_sync_config]. *)
Variable cfg : settings.

Definition DEV_BRANCH : string := DevBranch cfg.
Definition RELEASE_BRANCH : string := ReleaseBranch cfg.
Definition MANIFEST_PATH : string := ManifestPath cfg.
Definition README_PATH : string := ReadmePath cfg.
Definition CHANGELOG_PATH : string := ChangelogPath cfg.
Definition BACKUP_NAME_FORMAT : string := BackupFormat cfg.
Definition PROJECT_NAME : string := RemoteProjectName cfg.

Definition log_and_print (message level : string) : proc unit :=
  emit (Logged level message).

Definition subprocess_run (cmd : string) : proc cmd_result :=
  fun h =>
    let res := sh env h cmd in
    ((h ++ [Ran cmd (returncode res)])%list, Normal res).

Definition check_run (cmd : string) (exit_on_fail : bool) : proc (option string) :=
  log_and_print ("EXECUTING: " ++ cmd) "DEBUG" ;;
  res <- subprocess_run cmd ;;
  if negb (returncode res =? 0)%nat then
    log_and_print ("FAILED: " ++ PyStr.strip (stderr res)) "ERROR" ;;
    if exit_on_fail then sys_exit 1 else ret None
  else
    ret (Some (if PyStr.truthy (stdout res) then PyStr.strip (stdout res)
               else "SUCCESS")).

Definition get_current_branch : proc string :=
  res <- subprocess_run "git rev-parse --abbrev-ref HEAD" ;;
  ret (PyStr.strip (stdout res)).

Definition verify_env (is_release_op : bool) : proc unit :=
  if negb (cwd_basename env =? LocalFolderName cfg) then sys_exit 1
  else
    curr <- get_current_branch ;;
    if is_release_op && (curr =? RELEASE_BRANCH)
    then check_run ("git checkout " ++ DEV_BRANCH) true ;; ret tt
    else ret tt.

(** [get_project_version] in the process. *)
Definition get_project_version_run (auto_yes : bool) : proc string :=
  m <- ask (manifest_at env) ;;
  line <- (if negb auto_yes then
             emit (Printed ("Detected version from Manifest: "
                              ++ resolved_version m cfg)) ;;
             emit (Asked "Confirm version") ;;
             ask (typed env)
           else ret EmptyString) ;;
  stored <- ask (stored_settings env) ;;
  let (ver, stored') := get_project_version auto_yes m cfg line stored in
  emit (WroteSettings stored') ;;
  ret ver.

(** [create_backup] in the process.  The name is formatted at line 155,
    before the [try] of line 166: what [format] raises is not caught. *)
Definition create_backup_run (version type_label destination : string) : proc unit :=
  date <- ask (now_date env) ;;
  time <- ask (now_time env) ;;
  branch <- get_current_branch ;;
  match format_name BACKUP_NAME_FORMAT
          (mk_name_fields date time type_label PROJECT_NAME "LOCAL"
                          version branch) with
  | None => raise (FormatError BACKUP_NAME_FORMAT)
  | Some name =>
      files <- ask (walk env) ;;
      before <- ask (zip_before env) ;;
      creatable <- ask (can_create_zip env) ;;
      let st := create_backup re_match name type_label
                  (RELEASE_WHITELIST (ReleaseWhiteList cfg)) (path_sep env)
                  files before creatable in
      emit (Archived destination name (zip_file st)) ;;
      log_and_print (snd (logged st)) (fst (logged st))
  end.

Definition generate_changelog (version : string) : proc string :=
  tag_res <- subprocess_run "git describe --tags --abbrev=0" ;;
  (* [tag] is only tested for truth and spliced: [None] is kept as "" *)
  let tag := if (returncode tag_res =? 0)%nat
             then PyStr.strip (stdout tag_res) else EmptyString in
  let cmd := if PyStr.truthy tag
             then "git log " ++ tag ++ "..HEAD --pretty=format:" ++ dq ++ "- %s" ++ dq
             else "git log -n 5 --pretty=format:" ++ dq ++ "- %s" ++ dq in
  log_res <- subprocess_run cmd ;;
  let commits := commits_of (stdout log_res) in
  date <- ask (now_date env) ;;
  doc <- ask (fun h => read_file env h CHANGELOG_PATH) ;;
  match changelog_write version date commits doc with
  | Some text => emit (WroteFile CHANGELOG_PATH text)
  | None => ret tt
  end ;;
  ret commits.

(** [apply_whitelist] in the process. *)
Definition apply_whitelist_run : proc unit :=
  items <- ask (listdir env) ;;
  match apply_whitelist re_match (RELEASE_WHITELIST (ReleaseWhiteList cfg)) items with
  | (kept, Ok _) => emit (TreeLeft kept)
  | (kept, Raise e) => emit (TreeLeft kept) ;; raise e
  end.

Definition temp_branch : string := "temp_release_work".

(** Lines 242-247, the incremental update of the release branch. *)
Definition push_update (version : string) : proc unit :=
  check_run ("git checkout " ++ RELEASE_BRANCH) true ;;
  check_run ("git pull " ++ ReleaseRemote cfg ++ " " ++ RELEASE_BRANCH) true ;;
  check_run ("git checkout " ++ temp_branch ++ " -- .") true ;;
  check_run "git add -A" true ;;
  check_run ("git commit -m " ++ dq ++ "Update v" ++ version ++ dq
               ++ " --allow-empty") true ;;
  check_run ("git push " ++ ReleaseRemote cfg ++ " " ++ RELEASE_BRANCH) true ;;
  ret tt.

(** Line 240, the forced push of the flattened branch. *)
Definition push_deploy : proc unit :=
  check_run ("git push " ++ ReleaseRemote cfg ++ " " ++ temp_branch ++ ":"
               ++ RELEASE_BRANCH ++ " --force") true ;;
  ret tt.

(** Lines 215-237: everything before the push. *)
Definition flatten (version : string) (is_deploy : bool) : proc string :=
  let mode := if is_deploy then "DEPLOY" else "UPDATE" in
  verify_env true ;;
  notes <- generate_changelog version ;;
  readme <- ask (fun h => read_file env h README_PATH) ;;
  match readme with
  | Some txt =>
      emit (WroteFile README_PATH
              (re_sub "(?i)(version[:\s]+)([0-9\.]+)" ("\g<1>" ++ version) txt))
  | None => ret tt
  end ;;
  check_run ("git add " ++ CHANGELOG_PATH ++ " " ++ README_PATH) true ;;
  status <- subprocess_run "git status --porcelain" ;;
  (if PyStr.truthy (PyStr.strip (stdout status))
   then check_run ("git commit -m " ++ dq ++ "v" ++ version
                     ++ " | Metadata update" ++ dq) true ;; ret tt
   else ret tt) ;;
  create_backup_run version ("PRE_" ++ mode) "parent" ;;
  subprocess_run ("git branch -D " ++ temp_branch) ;;
  check_run ("git checkout --orphan " ++ temp_branch ++ " " ++ DEV_BRANCH) true ;;
  apply_whitelist_run ;;
  check_run "git add -A" true ;;
  check_run ("git commit -m " ++ dq ++ "Release v" ++ version ++ dq
               ++ " --allow-empty") true ;;
  ret notes.

(** Lines 249-265: the tag, the hosted release, the way back to the
    development branch. *)
Definition finish (version notes : string) (is_deploy : bool) : proc unit :=
  check_run ("git tag -a v" ++ version ++ " -m 'v" ++ version ++ "'") true ;;
  check_run ("git push " ++ ReleaseRemote cfg ++ " v" ++ version) true ;;
  (if is_deploy then
     url <- check_run ("git remote get-url " ++ ReleaseRemote cfg) true ;;
     match url with
     | None => raise TypeError
     | Some u =>
         let repo := PyStr.replace ".git" EmptyString
                       (re_sub ".*github\.com[:/]" EmptyString u) in
         subprocess_run ("gh release delete v" ++ version ++ " --repo " ++ repo
                           ++ " -y") ;;
         check_run ("gh release create v" ++ version ++ " --repo " ++ repo
                      ++ " --title " ++ dq ++ "v" ++ version ++ dq
                      ++ " --notes " ++ dq ++ notes ++ dq) true ;;
         ret tt
     end
   else ret tt) ;;
  check_run ("git checkout " ++ DEV_BRANCH ++ " -f") true ;;
  check_run ("git checkout v" ++ version ++ " -- " ++ MANIFEST_PATH ++ " "
               ++ CHANGELOG_PATH ++ " " ++ README_PATH) false ;;
  status <- subprocess_run "git status --porcelain" ;;
  (if PyStr.truthy (PyStr.strip (stdout status))
   then
     check_run ("git commit -m " ++ dq ++ "v" ++ version
                  ++ " | Sync metadata back from release" ++ dq) true ;;
     check_run ("git push " ++ DevRemote cfg ++ " " ++ DEV_BRANCH) true ;;
     ret tt
   else ret tt) ;;
  subprocess_run ("git branch -D " ++ temp_branch) ;;
  ret tt.

Definition handle_master_sync (version : string) (auto is_deploy : bool) : proc unit :=
  notes <- flatten version is_deploy ;;
  (if is_deploy then push_deploy else push_update version) ;;
  finish version notes is_deploy.

(** Lines 289-296: the plain synchronisation of the development
    branch. *)
Definition dev_sync (VER : string) (yes : bool) : proc unit :=
  curr <- get_current_branch ;;
  (if negb (curr =? DEV_BRANCH)
   then check_run ("git checkout " ++ DEV_BRANCH ++ " -f") true ;; ret tt
   else ret tt) ;;
  check_run "git add ." true ;;
  diff <- subprocess_run "git diff --cached --name-status" ;;
  if PyStr.truthy (PyStr.strip (stdout diff)) then
    msg <- (if yes then ret "auto sync"
            else emit (Asked "Dev commit msg") ;;
                 line <- ask (typed env) ;; ret (PyStr.strip line)) ;;
    if PyStr.truthy msg then
      check_run ("git commit -m " ++ dq ++ "v" ++ VER ++ " | " ++ msg ++ dq) true ;;
      check_run ("git push " ++ DevRemote cfg ++ " " ++ DEV_BRANCH) true ;;
      ret tt
    else ret tt
  else emit (Printed "Nothing to sync on dev branch.").

(** Lines 299-301, the flag [-o]: the editor is started on the log when
    it is installed, and its result is not read; else [os.startfile] is
    called, which is an [AttributeError] where [os] has no such
    function. *)
Definition open_log : proc unit :=
  installed <- ask (fun h => path_exists env h VS_CODE_PATH) ;;
  if installed then emit (Started [VS_CODE_PATH; log_path])
  else if has_startfile env then emit OpenedLog
  else raise (AttributeError "startfile").

(** The [__main__] block. *)
Definition main (args : arguments) : proc unit :=
  verify_env (arg_deploy args || arg_update args) ;;
  VER <- get_project_version_run (arg_yes args) ;;
  (if arg_full_backup args then create_backup_run VER "FULL_BACKUP" "parent"
   else if arg_zip args then create_backup_run VER "LOCAL_ZIP" "local"
   else if arg_deploy args then handle_master_sync VER (arg_yes args) true
   else if arg_update args then handle_master_sync VER (arg_yes args) false
   else dev_sync VER (arg_yes args)) ;;
  if arg_open args then open_log else ret tt.

(** The exit status of the process started from an empty history. *)
Definition exit_status (args : arguments) : nat :=
  match snd (main args []) with
  | Normal _ => 0
  | Exit code => code
  | Uncaught _ => 1
  end.

End Script.

(* ================================================================== *)
(** ** Vocabulary for the runs of the process                          *)
(* ================================================================== *)

(** [m] always returns, and a run of [m] adds the commands [cs] to the
    ones run before. *)
Definition issues {A : Type} (m : proc A) (cs : list (string * nat)) : Prop :=
  forall h, exists h' a,
    m h = (h', Normal a) /\ commands h' = (commands h ++ cs)%list.

(** [m] always returns, whatever commands it runs. *)
Definition completes {A : Type} (m : proc A) : Prop :=
  forall h, exists h' a cs,
    m h = (h', Normal a) /\ commands h' = (commands h ++ cs)%list.

(** The commands of lines 244-247: the overlay of the filtered tree, the
    staging, the commit and the push. *)
Definition overlay_commit_push (cfg : settings) (version : string)
  : list (string * nat) :=
  [("git checkout " ++ temp_branch ++ " -- .", 0);
   ("git add -A", 0);
   ("git commit -m " ++ dq ++ "Update v" ++ version ++ dq ++ " --allow-empty", 0);
   ("git push " ++ ReleaseRemote cfg ++ " " ++ RELEASE_BRANCH cfg, 0)].

(* ================================================================== *)
(** ** Sample data                                                     *)
(* ================================================================== *)

(** The settings [load_and_sync_config] writes for a project folder
    [proj]. *)
Definition sample_cfg : settings :=
  mk_settings "proj" "proj" "1.0.0" "origin" "origin" "dev" "master"
              "manifest.xml" "README.md" "CHANGELOG.md"
              default_ReleaseWhiteList
              "{date}_{time}_{type}_{project}_v{version}_{remote}_{branch}.zip".

(** An environment in which every command succeeds and prints nothing:
    [git status --porcelain] reports no change at any point. *)
Definition quiet_env : environment :=
  mk_environment
    (fun _ _ => mk_cmd_result 0 EmptyString EmptyString)
    "proj"
    (fun _ _ => None)
    (fun _ => [Dir ".git" []; Dir "Plugin" [File "a.dll"]; File "manifest.xml";
               File "sync.py"; File "notes.txt"])
    (fun _ => [mk_walked ["Plugin"] "a.dll" true; mk_walked [] "manifest.xml" true])
    (fun _ => None)
    (fun _ => true)
    (fun _ => "2026-01-01")
    (fun _ => "120000")
    (fun _ => ManifestVersion (Some "2.3.1"))
    (fun _ => EmptyString)
    (fun _ => sample_cfg)
    "/"%char
    (fun _ _ => false)
    false.

(* ================================================================== *)
(** ** The settings file: [load_and_sync_config]                       *)
(* ================================================================== *)

Module Config.

(** [s.lower()] on the ASCII range. *)
Definition lower_char (c : ascii) : ascii :=
  let n := nat_of_ascii c in
  if ((65 <=? n) && (n <=? 90))%nat then ascii_of_nat (n + 32) else c.

Fixpoint lower (s : string) : string :=
  match s with
  | EmptyString => EmptyString
  | String c s' => String (lower_char c) (lower s')
  end.

(** The options of the [SETTINGS] section, in the order of the
    dictionary; [configparser] keeps the option names in lower case. *)
Definition options : Type := list (string * string).

Fixpoint lookup (key : string) (c : options) : option string :=
  match c with
  | [] => None
  | (k, v) :: c' => if k =? key then Some v else lookup key c'
  end.

(** Assignment in a dictionary: a known key keeps its place, a new one
    goes to the end. *)
Fixpoint store (key value : string) (c : options) : options :=
  match c with
  | [] => [(key, value)]
  | (k, v) :: c' =>
      if k =? key then (k, value) :: c' else (k, v) :: store key value c'
  end.

(** [config.has_option('SETTINGS', key)] *)
Definition has_option (c : options) (key : string) : bool :=
  match lookup (lower key) c with
  | Some _ => true
  | None => false
  end.

(** [config.set('SETTINGS', key, value)] *)
Definition set (c : options) (key value : string) : options :=
  store (lower key) value c.

(** [config.get('SETTINGS', key)] *)
Definition get (c : options) (key : string) : option string :=
  lookup (lower key) c.

(** [defaults], lines 28-43. *)
Definition defaults (detected_folder : string) : list (string * string) :=
  [("LocalFolderName", "CHANGE_ME");
   ("RemoteProjectName", detected_folder);
   ("DefaultVersion", "1.0.0");
   ("DevRemote", "origin");
   ("ReleaseRemote", "origin");
   ("DevBranch", "dev");
   ("ReleaseBranch", "master");
   ("ManifestPath", "manifest.xml");
   ("ReadmePath", "README.md");
   ("ChangelogPath", "CHANGELOG.md");
   ("LogDir", "logs");
   ("VSCodePath", "c:\dev\VSCode\bin\code.cmd");
   ("ReleaseWhiteList", default_ReleaseWhiteList);
   ("BackupFormat", "{date}_{time}_{type}_{project}_v{version}_{remote}_{branch}.zip")].

(** The loop of lines 51-55. *)
Fixpoint fill_defaults (defs : list (string * string)) (c : options)
         (updated : bool) : options * bool :=
  match defs with
  | [] => (c, updated)
  | (key, value) :: defs' =>
      if negb (has_option c key)
      then fill_defaults defs' (set c key value) true
      else fill_defaults defs' c updated
  end.

(** Line 57: [config.get('SETTINGS', 'LocalFolderName') == 'CHANGE_ME'];
    after the loop over the defaults the option is always there. *)
Definition needs_setup (c : options) : bool :=
  match get c "LocalFolderName" with
  | Some v => v =? "CHANGE_ME"
  | None => false
  end.

(** [load_and_sync_config]: [file] is the [SETTINGS] section read from
    [config_sync.ini] ([None] when the file or the section is missing),
    [detected_folder] the name of the working directory, [confirm_line]
    and [custom_line] the lines [input] returns if the operator is asked.
    The result is what is written to the file, if anything, and how the
    call ends.  The test of line 58 compares the list [sys.argv] with
    strings and never holds. *)
Definition load_and_sync_config (file : option options)
           (detected_folder confirm_line custom_line : string)
  : option options * outcome options :=
  let config := match file with Some c => c | None => [] end in
  let (config, updated) := fill_defaults (defaults detected_folder) config false in
  if needs_setup config then
    let confirm := lower confirm_line in
    if confirm =? "y" then
      let config := set config "LocalFolderName" detected_folder in
      (Some config, Normal config)
    else
      let custom_name := PyStr.strip custom_line in
      if PyStr.truthy custom_name then
        let config := set config "LocalFolderName" custom_name in
        (Some config, Normal config)
      else (None, Exit 1)
  else (if updated then Some config else None, Normal config).

End Config.

(* ================================================================== *)
(** ** More vocabulary                                                 *)
(* ================================================================== *)

(** The files of a walk that [create_backup] hands to [zipf.write]. *)
Definition archived_by (re_match : string -> string -> option bool)
           (name type_label : string) (rules : list string) (sep : ascii)
           (f : walked) : bool :=
  negb (w_file f =? name)
  && match (if type_label =? "LOCAL_ZIP" then zip_filter re_match rules sep f
            else Ok true) with
     | Ok allowed => allowed
     | Raise _ => false
     end.

(** Every character is white space. *)
Fixpoint all_space (s : string) : bool :=
  match s with
  | EmptyString => true
  | String c s' => PyStr.is_space c && all_space s'
  end.

(** No character of [s] is [c]. *)
Fixpoint lacks (c : ascii) (s : string) : bool :=
  match s with
  | EmptyString => true
  | String d s' => negb (Ascii.eqb d c) && lacks c s'
  end.


(** The events a run adds are the ones of [h'] after [h]. *)
Definition adds {A : Type} (m : proc A) (P : list event -> outcome A -> Prop) : Prop :=
  forall h, exists evs, fst (m h) = (h ++ evs)%list /\ P evs (snd (m h)).

(** Every event a run of [m] adds satisfies [ok]. *)
Definition only {A : Type} (ok : event -> Prop) (m : proc A) : Prop :=
  adds m (fun evs _ => Forall ok evs).

(** The events that leave the working tree and the tracked documents as
    they are. *)
Definition harmless (e : event) : Prop :=
  match e with
  | TreeLeft _ | WroteFile _ _ => False
  | _ => True
  end.


(** An end of the run in which [sys.exit], if called, was called with
    status 1, and in which no operation was applied to [None]. *)
Definition expected_end {A : Type} (o : outcome A) : Prop :=
  match o with
  | Normal _ => True
  | Exit code => code = 1
  | Uncaught e => e <> TypeError
  end.

(** [m] ends in an expected way, and with a value that satisfies [V]
    when it returns. *)
Definition ends {A : Type} (m : proc A) (V : A -> Prop) : Prop :=
  forall h, match snd (m h) with
            | Normal a => V a
            | o => expected_end o
            end.



(** What a backup run may do: ask for the current branch, go back to the
    development branch, log, prompt, save the settings, archive and, when
    the log is to be opened, start the editor on it or hand it to
    [os.startfile]. *)
Definition backup_event (cfg : settings) (open : bool) (editor log : string)
           (e : event) : Prop :=
  match e with
  | Ran cmd _ =>
      cmd = "git rev-parse --abbrev-ref HEAD"
      \/ cmd = "git checkout " ++ DEV_BRANCH cfg
  | Started argv => open = true /\ argv = [editor; log]
  | OpenedLog => open = true
  | TreeLeft _ | WroteFile _ _ => False
  | _ => True
  end.

(** What the plain synchronisation does when there is nothing to commit:
    no commit, no push. *)
Definition idle_sync_event (cfg : settings) (e : event) : Prop :=
  match e with
  | Ran cmd _ =>
      cmd = "git rev-parse --abbrev-ref HEAD"
      \/ cmd = "git checkout " ++ DEV_BRANCH cfg ++ " -f"
      \/ cmd = "git add ."
      \/ cmd = "git diff --cached --name-status"
  | Logged _ _ | Printed _ | Asked _ => True
  | _ => False
  end.



(** An environment like [quiet_env] in which the editor is installed. *)
Definition editor_env : environment :=
  mk_environment
    (sh quiet_env) (cwd_basename quiet_env) (read_file quiet_env)
    (listdir quiet_env) (walk quiet_env) (zip_before quiet_env)
    (can_create_zip quiet_env) (now_date quiet_env) (now_time quiet_env)
    (manifest_at quiet_env) (typed quiet_env) (stored_settings quiet_env)
    (path_sep quiet_env) (fun _ _ => true) (has_startfile quiet_env).


(** An environment like [quiet_env] in which the deletion of the
    temporary branch and of the hosted release fail. *)
Definition flaky_env : environment :=
  mk_environment
    (fun _ cmd =>
       if PyStr.startswith "git branch -D" cmd
          || PyStr.startswith "gh release delete" cmd
       then mk_cmd_result 1 EmptyString "not found"
       else mk_cmd_result 0 EmptyString EmptyString)
    (cwd_basename quiet_env) (read_file quiet_env) (listdir quiet_env)
    (walk quiet_env) (zip_before quiet_env) (can_create_zip quiet_env)
    (now_date quiet_env) (now_time quiet_env) (manifest_at quiet_env)
    (typed quiet_env) (stored_settings quiet_env) (path_sep quiet_env)
    (path_exists quiet_env) (has_startfile quiet_env).

(** The events that are not a commit of metadata
    ([git commit -m "v... | ..."]). *)
Definition no_metadata_commit (e : event) : Prop :=
  match e with
  | Ran cmd _ => PyStr.startswith ("git commit -m " ++ dq ++ "v") cmd = false
  | _ => True
  end.

(* ================================================================== *)
(** * Properties                                                       *)
(* ================================================================== *)

(* ------------------------------------------------------------------ *)
(** *** Facts about the string operations                              *)
(* ------------------------------------------------------------------ *)

Section StringFacts.
Import PyStr.

Lemma app_empty_r (s : string) : s ++ "" = s.
Proof. induction s as [|c s IH]; simpl; [reflexivity | now rewrite IH]. Qed.

Lemma app_assoc_str (a b c : string) : (a ++ b) ++ c = a ++ (b ++ c).
Proof. induction a as [|x a IH]; simpl; [reflexivity | now rewrite IH]. Qed.

Lemma length_app_str (a b : string) :
  String.length (a ++ b) = String.length a + String.length b.
Proof. induction a as [|x a IH]; simpl; [reflexivity | now rewrite IH]. Qed.

Lemma prefix_app (p t : string) : String.prefix p (p ++ t) = true.
Proof.
  induction p as [|c p IH]; simpl.
  - now destruct t.
  - destruct (ascii_dec c c) as [_|n]; [exact IH | now elim n].
Qed.

Lemma prefix_split (p s : string) :
  String.prefix p s = true -> exists t, s = p ++ t.
Proof.
  revert s; induction p as [|c p IH]; intros s H.
  - now exists s.
  - destruct s as [|d s]; simpl in H; [discriminate|].
    destruct (ascii_dec c d) as [->|_]; [|discriminate].
    destruct (IH _ H) as [t ->]. now exists t.
Qed.

Lemma prefix_iff (p s : string) :
  String.prefix p s = true <-> exists t, s = p ++ t.
Proof.
  split; [apply prefix_split | intros [t ->]; apply prefix_app].
Qed.

Lemma contains_app_l (sub a b : string) :
  contains sub b = true -> contains sub (a ++ b) = true.
Proof.
  intros H; induction a as [|c a IH]; [exact H|].
  change (String c a ++ b) with (String c (a ++ b)).
  cbn [contains]. rewrite IH. apply orb_true_r.
Qed.

Lemma contains_intro (sub a b : string) :
  contains sub (a ++ sub ++ b) = true.
Proof.
  apply contains_app_l.
  pose proof (prefix_app sub b) as H.
  destruct (sub ++ b); cbn [contains]; rewrite H; reflexivity.
Qed.

Lemma contains_split (sub s : string) :
  contains sub s = true -> exists a b, s = a ++ sub ++ b.
Proof.
  induction s as [|c s IH]; cbn [contains]; intros H.
  - rewrite orb_false_r in H. apply prefix_split in H as [t Ht].
    exists "", t. exact Ht.
  - apply orb_true_iff in H as [H|H].
    + apply prefix_split in H as [t Ht]. exists "", t. exact Ht.
    + destruct (IH H) as (a & b & ->). now exists (String c a), b.
Qed.

Lemma contains_iff (sub s : string) :
  contains sub s = true <-> exists a b, s = a ++ sub ++ b.
Proof.
  split; [apply contains_split | intros (a & b & ->); apply contains_intro].
Qed.

Lemma replace_char_app (x y : ascii) (a b : string) :
  replace_char x y (a ++ b) = replace_char x y a ++ replace_char x y b.
Proof. induction a as [|c a IH]; simpl; [reflexivity | now rewrite IH]. Qed.

End StringFacts.

Section ReExamples.
Import Re.

Example re_literal_prefix : re_match "manifest.xml" "manifest.xml.bak" = Some true.
Proof. vm_compute. reflexivity. Qed.

Example re_dot_is_wild : re_match "manifest.xml" "manifestAxml" = Some true.
Proof. vm_compute. reflexivity. Qed.

Example re_md_yes : re_match ".*\.md$" "notes.md" = Some true.
Proof. vm_compute. reflexivity. Qed.

Example re_md_no : re_match ".*\.md$" "notes.mdx" = Some false.
Proof. vm_compute. reflexivity. Qed.

Example re_dir_rule_no : re_match "Plugin/" "Plugin" = Some false.
Proof. vm_compute. reflexivity. Qed.

Example re_alt_slash : re_match "a|/" "abc" = Some true.
Proof. vm_compute. reflexivity. Qed.

Example re_unbalanced : compile "(" = Malformed.
Proof. vm_compute. reflexivity. Qed.

Example re_nothing_to_repeat : compile "*.md" = Malformed.
Proof. vm_compute. reflexivity. Qed.

Example re_empty_matches : re_match "" "anything" = Some true.
Proof. vm_compute. reflexivity. Qed.

Example re_group_plus : re_match "(ab)+c$" "ababc" = Some true.
Proof. vm_compute. reflexivity. Qed.

End ReExamples.

Example default_whitelist_rules :
  RELEASE_WHITELIST default_ReleaseWhiteList =
  ["Plugin/"; "manifest.xml"; ".gitignore"; "LICENSE"; "CHANGELOG.md";
   ".*\.csproj$"; ".*\.sln$"; ".*\.md$"].
Proof. vm_compute. reflexivity. Qed.

(* ================================================================== *)
(** ** The whitelist filter of the archiver                            *)
(* ================================================================== *)

Section ZipFilterFacts.
Import PyStr.

Variable re_match : string -> string -> option bool.

Lemma zip_rules_loop_no_raise (rules : list string) (mpath file : string) :
  (forall p, In p rules -> re_match (strip p) file <> None) ->
  zip_rules_loop re_match rules mpath file
  = Ok (existsb (zip_rule_matches re_match mpath file) rules).
Proof.
  induction rules as [|p ps IH]; intros Hwf; [reflexivity|].
  cbn [zip_rules_loop existsb]. unfold zip_rule_matches at 1.
  destruct (endswith "/" (strip p) && startswith (strip p) mpath); [reflexivity|].
  cbn [orb].
  destruct (re_match (strip p) file) as [[|]|] eqn:E.
  - reflexivity.
  - apply IH. intros q Hq. apply Hwf. now right.
  - exfalso. apply (Hwf p); [now left | exact E].
Qed.

Lemma zip_rule_matches_spec (mpath file p : string) :
  zip_rule_matches re_match mpath file p = true <->
  (endswith "/" (strip p) = true /\ startswith (strip p) mpath = true)
  \/ re_match (strip p) file = Some true.
Proof.
  unfold zip_rule_matches. rewrite orb_true_iff, andb_true_iff.
  split; intros [H|H]; auto.
  - right. now destruct (re_match (strip p) file) as [[|]|].
  - right. now rewrite H.
Qed.

Lemma join_path_mentions (sep : ascii) (dirs : list string) (file d : string) :
  In d dirs -> exists a b, join_path sep dirs file = a ++ d ++ b.
Proof.
  induction dirs as [|x xs IH]; intros Hin; [destruct Hin|].
  destruct Hin as [->|Hin].
  - exists "", (String sep (join_path sep xs file)). reflexivity.
  - destruct (IH Hin) as (a & b & E).
    exists (x ++ String sep a), b. cbn [join_path]. rewrite E.
    now rewrite app_assoc_str.
Qed.

(** A file below a [.git] directory never reaches the rules. *)
Lemma git_directory_rejected (rules : list string) (sep : ascii) (f : walked) :
  In ".git" (w_dirs f) -> zip_filter re_match rules sep f = Ok false.
Proof.
  intros Hin. unfold zip_filter, match_path, rel_path.
  destruct (join_path_mentions sep (w_dirs f) (w_file f) ".git" Hin) as (a & b & ->).
  rewrite !replace_char_app.
  change (replace_char "\"%char "/"%char ".git") with ".git".
  now rewrite contains_intro.
Qed.

End ZipFilterFacts.

Lemma git_directory_rejected_witness :
  In ".git" [".git"; "hooks"] /\
  zip_filter Re.re_match [".*"] "/"%char (mk_walked [".git"; "hooks"] "pre-commit" true)
  = Ok false.
Proof.
  split; [now left|].
  apply (git_directory_rejected Re.re_match [".*"] "/"%char
           (mk_walked [".git"; "hooks"] "pre-commit" true)).
  now left.
Defined.

(** C1 (as amended).  For a path that does not contain [.git] and rules
    that are all valid regular expressions, the whitelist filter of the
    filtered archive returns, and returns true iff at least one rule
    matches: either the rule ends with [/] and the normalised path begins
    with it, or the rule matches, as a regular expression, the file name.
    With the rules [Plugin/], [manifest.xml], [.*\.md$] and the tree
    [Plugin/a.dll], [manifest.xml], [notes.md], [secret.key] the filtered
    archive holds exactly the first three. *)
Theorem zip_filter_true_iff_rule_matches :
  (forall (re_match : string -> string -> option bool)
          (rules : list string) (sep : ascii) (f : walked),
      PyStr.contains ".git" (match_path sep f) = false ->
      (forall p, In p rules -> re_match (PyStr.strip p) (w_file f) <> None) ->
      exists allowed,
        zip_filter re_match rules sep f = Ok allowed /\
        (allowed = true <->
         exists p, In p rules /\
           ((PyStr.endswith "/" (PyStr.strip p) = true /\
             PyStr.startswith (PyStr.strip p) (match_path sep f) = true)
            \/ re_match (PyStr.strip p) (w_file f) = Some true)))
  /\
  create_backup Re.re_match "backup.zip" "LOCAL_ZIP"
    ["Plugin/"; "manifest.xml"; ".*\.md$"] "/"%char
    [mk_walked ["Plugin"] "a.dll" true; mk_walked [] "manifest.xml" true;
     mk_walked [] "notes.md" true; mk_walked [] "secret.key" true]
    None true
  = mk_backup (Some ["Plugin/a.dll"; "manifest.xml"; "notes.md"])
              ("INFO", "Archive SUCCESS").
Proof.
  split; [|vm_compute; reflexivity].
  intros re_match rules sep f Hgit Hwf.
  exists (existsb (zip_rule_matches re_match (match_path sep f) (w_file f)) rules).
  split.
  - unfold zip_filter. rewrite Hgit. now apply zip_rules_loop_no_raise.
  - rewrite existsb_exists. split.
    + intros (p & Hin & Hm). exists p. split; [exact Hin|].
      now apply zip_rule_matches_spec.
    + intros (p & Hin & Hm). exists p. split; [exact Hin|].
      now apply zip_rule_matches_spec.
Qed.

Lemma zip_filter_true_iff_rule_matches_witness :
  exists allowed,
    zip_filter Re.re_match ["Plugin/"; "manifest.xml"] "/"%char
               (mk_walked ["Plugin"] "a.dll" true) = Ok allowed /\
    (allowed = true <->
     exists p, In p ["Plugin/"; "manifest.xml"] /\
       ((PyStr.endswith "/" (PyStr.strip p) = true /\
         PyStr.startswith (PyStr.strip p)
           (match_path "/"%char (mk_walked ["Plugin"] "a.dll" true)) = true)
        \/ Re.re_match (PyStr.strip p) "a.dll" = Some true)).
Proof.
  apply (proj1 zip_filter_true_iff_rule_matches Re.re_match
           ["Plugin/"; "manifest.xml"] "/"%char (mk_walked ["Plugin"] "a.dll" true)).
  - vm_compute. reflexivity.
  - intros p [<-|[<-|[]]]; vm_compute; discriminate.
Defined.

(** C1 as stated fails: a file below [.git] is refused although the rule
    [.*] matches its name, and a rule that is not a regular expression
    makes the filter raise before a later rule that matches is tried. *)
Lemma zip_filter_not_iff_rule_matches :
  ~ (zip_filter Re.re_match [".*"] "/"%char (mk_walked [".git"] "config" true) = Ok true
     <-> exists p, In p [".*"] /\
           ((PyStr.endswith "/" (PyStr.strip p) = true /\
             PyStr.startswith (PyStr.strip p)
               (match_path "/"%char (mk_walked [".git"] "config" true)) = true)
            \/ Re.re_match (PyStr.strip p) "config" = Some true))
  /\
  (zip_filter Re.re_match [".*"] "/"%char (mk_walked [".git"] "config" true) = Ok false
   /\ Re.re_match (PyStr.strip ".*") "config" = Some true)
  /\
  (zip_filter Re.re_match ["("; "manifest.xml"] "/"%char (mk_walked [] "manifest.xml" true)
   = Raise (ReError "(")
   /\ Re.re_match (PyStr.strip "manifest.xml") "manifest.xml" = Some true
   /\ Re.compile "(" = Re.Malformed).
Proof.
  split; [|vm_compute; repeat split].
  intros [_ H].
  assert (E : zip_filter Re.re_match [".*"] "/"%char (mk_walked [".git"] "config" true)
              = Ok true).
  { apply H. exists ".*". split; [now left|]. right. vm_compute. reflexivity. }
  vm_compute in E. discriminate.
Qed.

(** C2 at its failing input.  [.gitignore] at the top of the tree has no
    [.git] directory above it and is listed by the default whitelist, yet
    the filter refuses it, whatever the rules. *)
Theorem gitignore_always_rejected :
  existsb (String.eqb ".git") (w_dirs (mk_walked [] ".gitignore" true)) = false
  /\ existsb (String.eqb ".gitignore") (RELEASE_WHITELIST default_ReleaseWhiteList) = true
  /\ Re.re_match ".gitignore" ".gitignore" = Some true
  /\ zip_filter Re.re_match (RELEASE_WHITELIST default_ReleaseWhiteList) "/"%char
                (mk_walked [] ".gitignore" true) = Ok false
  /\ (forall (re_match : string -> string -> option bool) (rules : list string)
             (sep : ascii),
         zip_filter re_match rules sep (mk_walked [] ".gitignore" true) = Ok false)
  /\ tree_rules_loop Re.re_match (RELEASE_WHITELIST default_ReleaseWhiteList)
                     ".gitignore" = Ok true.
Proof.
  repeat split; try (vm_compute; reflexivity).
Qed.

(* ================================================================== *)
(** ** Errors while archiving                                          *)
(* ================================================================== *)

Section WalkFacts.
Import PyStr.

Variable re_match : string -> string -> option bool.

(** A walk that got through [pre] goes on with what follows. *)
Lemma walk_loop_app (name type_label : string) (rules : list string)
      (sep : ascii) (pre rest : list walked) (ms ms' : list string) :
  walk_loop re_match name type_label rules sep pre ms = (ms', Ok tt) ->
  walk_loop re_match name type_label rules sep (pre ++ rest)%list ms
  = walk_loop re_match name type_label rules sep rest ms'.
Proof.
  revert ms; induction pre as [|g gs IH]; intros ms H.
  - cbn in H. now injection H as ->.
  - cbn [walk_loop app] in *.
    destruct (w_file g =? name); [now apply IH|].
    destruct (if type_label =? "LOCAL_ZIP" then zip_filter re_match rules sep g
              else Ok true) as [[|]|e].
    + destruct (w_readable g); [now apply IH | discriminate].
    + now apply IH.
    + discriminate.
Qed.

(** The rules loop of the archiver raises exactly when a rule that is
    not a regular expression is reached: the rules before it were tried
    on this file, their directory test and their pattern failed, and the
    directory test of the rule at fault failed too. *)
Lemma zip_rules_loop_raise (rules : list string) (mpath file : string) (e : exn) :
  zip_rules_loop re_match rules mpath file = Raise e <->
  exists before p after,
    rules = (before ++ p :: after)%list /\
    e = ReError (strip p) /\
    (forall q, In q before ->
       (endswith "/" (strip q) && startswith (strip q) mpath) = false /\
       re_match (strip q) file = Some false) /\
    (endswith "/" (strip p) && startswith (strip p) mpath) = false /\
    re_match (strip p) file = None.
Proof.
  induction rules as [|r rs IH].
  - split; [discriminate|].
    intros (b & p & a & E & _). now destruct b.
  - cbn [zip_rules_loop]. split.
    + destruct (endswith "/" (strip r) && startswith (strip r) mpath) eqn:Ed;
        [discriminate|].
      destruct (re_match (strip r) file) as [[|]|] eqn:Em; [discriminate| |].
      * intros H. apply IH in H as (b & p & a & -> & -> & Hb & Hp).
        exists (r :: b), p, a.
        split; [reflexivity|]. split; [reflexivity|]. split; [|exact Hp].
        intros x [<-|Hx]; [now split | now apply Hb].
      * intros H. injection H as <-.
        exists [], r, rs.
        split; [reflexivity|]. split; [reflexivity|]. split; [|now split].
        intros x [].
    + intros (b & p & a & E & -> & Hb & Hd & Hm).
      destruct b as [|x b]; cbn in E; injection E as -> ->.
      * now rewrite Hd, Hm.
      * destruct (Hb x (or_introl eq_refl)) as [Hq1 Hq2].
        rewrite Hq1, Hq2. apply IH.
        exists b, p, a.
        split; [reflexivity|]. split; [reflexivity|]. split; [|now split].
        intros y Hy. apply Hb. now right.
Qed.

(** The filter raises exactly when the file passes the [.git] guard and
    its rules loop raises. *)
Lemma zip_filter_raise (rules : list string) (sep : ascii) (f : walked) (e : exn) :
  zip_filter re_match rules sep f = Raise e <->
  contains ".git" (match_path sep f) = false /\
  exists before p after,
    rules = (before ++ p :: after)%list /\
    e = ReError (strip p) /\
    (forall q, In q before ->
       (endswith "/" (strip q) && startswith (strip q) (match_path sep f)) = false /\
       re_match (strip q) (w_file f) = Some false) /\
    (endswith "/" (strip p) && startswith (strip p) (match_path sep f)) = false /\
    re_match (strip p) (w_file f) = None.
Proof.
  unfold zip_filter. destruct (contains ".git" (match_path sep f)).
  - split; [discriminate | intros [H _]; discriminate].
  - rewrite zip_rules_loop_raise.
    split; [intros H; split; [reflexivity | exact H] | intros [_ H]; exact H].
Qed.

(** The walk ends with the error of a rule exactly at the first file,
    not named like the archive, on which the filter raises; the files
    before it have been walked without an error. *)
Lemma walk_loop_raise (name type_label : string) (rules : list string)
      (sep : ascii) (files : list walked) (ms written : list string)
      (pattern : string) :
  walk_loop re_match name type_label rules sep files ms
  = (written, Raise (ReError pattern)) <->
  exists pre f post,
    files = (pre ++ f :: post)%list /\
    walk_loop re_match name type_label rules sep pre ms = (written, Ok tt) /\
    (w_file f =? name) = false /\
    (type_label =? "LOCAL_ZIP") = true /\
    zip_filter re_match rules sep f = Raise (ReError pattern).
Proof.
  split.
  - revert ms. induction files as [|g gs IH]; intros ms H; [discriminate|].
    cbn [walk_loop] in H.
    destruct (w_file g =? name) eqn:En.
    + apply IH in H as (pre & f & post & -> & Hpre & Hn & Ht & Hf).
      exists (g :: pre), f, post. repeat split; try assumption.
      cbn [walk_loop]. now rewrite En.
    + destruct (type_label =? "LOCAL_ZIP") eqn:Et.
      * destruct (zip_filter re_match rules sep g) as [[|]|e'] eqn:Ez.
        -- destruct (w_readable g) eqn:Er; [|discriminate].
           apply IH in H as (pre & f & post & -> & Hpre & Hn & Ht & Hf).
           exists (g :: pre), f, post. repeat split; try assumption.
           cbn [walk_loop]. now rewrite En, Et, Ez, Er.
        -- apply IH in H as (pre & f & post & -> & Hpre & Hn & Ht & Hf).
           exists (g :: pre), f, post. repeat split; try assumption.
           cbn [walk_loop]. now rewrite En, Et, Ez.
        -- injection H as E1 E2. subst.
           exists [], g, gs. repeat split; assumption.
      * destruct (w_readable g) eqn:Er; [|discriminate].
        apply IH in H as (pre & f & post & _ & _ & _ & Ht & _). discriminate.
  - intros (pre & f & post & -> & Hpre & Hn & Ht & Hf).
    rewrite (walk_loop_app name type_label rules sep pre (f :: post) ms written Hpre).
    cbn [walk_loop]. now rewrite Hn, Ht, Hf.
Qed.

(** A walk in which the filter raises on no file and every file can be
    read comes to its end. *)
Lemma walk_loop_ok (name type_label : string) (rules : list string)
      (sep : ascii) (files : list walked) (ms : list string) :
  (forall f, In f files -> (w_file f =? name) = false ->
             forall e, zip_filter re_match rules sep f <> Raise e) ->
  (forall f, In f files -> w_readable f = true) ->
  snd (walk_loop re_match name type_label rules sep files ms) = Ok tt.
Proof.
  revert ms. induction files as [|g gs IH]; intros ms Hf Hr; [reflexivity|].
  assert (Hf' : forall f, In f gs -> (w_file f =? name) = false ->
                          forall e, zip_filter re_match rules sep f <> Raise e)
    by (intros f Hin; apply Hf; now right).
  assert (Hr' : forall f, In f gs -> w_readable f = true)
    by (intros f Hin; apply Hr; now right).
  cbn [walk_loop].
  destruct (w_file g =? name) eqn:En; [now apply IH|].
  rewrite (Hr g (or_introl eq_refl)).
  destruct (type_label =? "LOCAL_ZIP"); [|now apply IH].
  destruct (zip_filter re_match rules sep g) as [[|]|e] eqn:Ez;
    [now apply IH | now apply IH |].
  now elim (Hf g (or_introl eq_refl) En e).
Qed.

(** The rules loop of the in-place whitelist raises exactly when a rule
    that is not a regular expression is reached. *)
Lemma tree_rules_loop_raise (rules : list string) (item : string) (e : exn) :
  tree_rules_loop re_match rules item = Raise e <->
  exists before p after,
    rules = (before ++ p :: after)%list /\
    e = ReError p /\
    (forall q, In q before ->
       (endswith "/" q && (item =? drop_last q)) = false /\
       re_match q item = Some false) /\
    (endswith "/" p && (item =? drop_last p)) = false /\
    re_match p item = None.
Proof.
  induction rules as [|r rs IH].
  - split; [discriminate|].
    intros (b & p & a & E & _). now destruct b.
  - cbn [tree_rules_loop]. split.
    + destruct (endswith "/" r && (item =? drop_last r)) eqn:Ed; [discriminate|].
      destruct (re_match r item) as [[|]|] eqn:Em; [discriminate| |].
      * intros H. apply IH in H as (b & p & a & -> & -> & Hb & Hp).
        exists (r :: b), p, a.
        split; [reflexivity|]. split; [reflexivity|]. split; [|exact Hp].
        intros x [<-|Hx]; [now split | now apply Hb].
      * intros H. injection H as <-.
        exists [], r, rs.
        split; [reflexivity|]. split; [reflexivity|]. split; [|now split].
        intros x [].
    + intros (b & p & a & E & -> & Hb & Hd & Hm).
      destruct b as [|x b]; cbn in E; injection E as -> ->.
      * now rewrite Hd, Hm.
      * destruct (Hb x (or_introl eq_refl)) as [Hq1 Hq2].
        rewrite Hq1, Hq2. apply IH.
        exists b, p, a.
        split; [reflexivity|]. split; [reflexivity|]. split; [|now split].
        intros y Hy. apply Hb. now right.
Qed.

(** An in-place whitelist that got through [pre] goes on with what
    follows. *)
Lemma apply_whitelist_app (rules : list string) (pre rest kept : list tree) :
  apply_whitelist re_match rules pre = (kept, Ok tt) ->
  apply_whitelist re_match rules (pre ++ rest)%list
  = ((kept ++ fst (apply_whitelist re_match rules rest))%list,
     snd (apply_whitelist re_match rules rest)).
Proof.
  revert kept. induction pre as [|x xs IH]; intros kept H.
  - cbn in H. injection H as <-. cbn [app].
    now destruct (apply_whitelist re_match rules rest).
  - cbn [apply_whitelist app] in *.
    destruct (is_protected (entry_name x)).
    + destruct (apply_whitelist re_match rules xs) as [k r] eqn:E.
      injection H as <- ->. now rewrite (IH k eq_refl).
    + destruct (tree_rules_loop re_match rules (entry_name x)) as [[|]|e'].
      * destruct (apply_whitelist re_match rules xs) as [k r] eqn:E.
        injection H as <- ->. now rewrite (IH k eq_refl).
      * now apply IH.
      * discriminate.
Qed.

(** The in-place whitelist raises exactly at the first entry, not
    protected, on which the rules loop raises: the entries before it have
    been treated, that entry and the ones after it are left. *)
Lemma apply_whitelist_raise (rules : list string) (items left : list tree)
      (e : exn) :
  apply_whitelist re_match rules items = (left, Raise e) <->
  exists pre t post kept,
    items = (pre ++ t :: post)%list /\
    apply_whitelist re_match rules pre = (kept, Ok tt) /\
    is_protected (entry_name t) = false /\
    tree_rules_loop re_match rules (entry_name t) = Raise e /\
    left = (kept ++ t :: post)%list.
Proof.
  split.
  - revert left. induction items as [|x xs IH]; intros left H; [discriminate|].
    cbn [apply_whitelist] in H.
    destruct (is_protected (entry_name x)) eqn:Ep.
    + destruct (apply_whitelist re_match rules xs) as [k r] eqn:E.
      injection H as <- ->.
      destruct (IH k eq_refl) as (pre & t & post & kept & -> & Hpre & Hp & Ht & ->).
      exists (x :: pre), t, post, (x :: kept). repeat split; try assumption.
      cbn [apply_whitelist]. now rewrite Ep, Hpre.
    + destruct (tree_rules_loop re_match rules (entry_name x)) as [[|]|e'] eqn:El.
      * destruct (apply_whitelist re_match rules xs) as [k r] eqn:E.
        injection H as <- ->.
        destruct (IH k eq_refl) as (pre & t & post & kept & -> & Hpre & Hp & Ht & ->).
        exists (x :: pre), t, post, (x :: kept). repeat split; try assumption.
        cbn [apply_whitelist]. now rewrite Ep, El, Hpre.
      * destruct (IH left H) as (pre & t & post & kept & -> & Hpre & Hp & Ht & ->).
        exists (x :: pre), t, post, kept. repeat split; try assumption.
        cbn [apply_whitelist]. now rewrite Ep, El.
      * injection H as <- <-.
        exists [], x, xs, []. repeat split; assumption.
  - intros (pre & t & post & kept & -> & Hpre & Hp & Ht & ->).
    rewrite (apply_whitelist_app rules pre (t :: post) kept Hpre).
    cbn [apply_whitelist]. now rewrite Hp, Ht.
Qed.

(** An in-place whitelist in which the rules loop raises on no entry
    comes to its end. *)
Lemma apply_whitelist_ok (rules : list string) (items : list tree) :
  (forall t, In t items -> is_protected (entry_name t) = false ->
             forall e, tree_rules_loop re_match rules (entry_name t) <> Raise e) ->
  snd (apply_whitelist re_match rules items) = Ok tt.
Proof.
  induction items as [|x xs IH]; intros H; [reflexivity|].
  assert (H' : forall t, In t xs -> is_protected (entry_name t) = false ->
                         forall e, tree_rules_loop re_match rules (entry_name t)
                                   <> Raise e)
    by (intros t Hin; apply H; now right).
  specialize (IH H').
  cbn [apply_whitelist].
  destruct (is_protected (entry_name x)) eqn:Ep.
  - now destruct (apply_whitelist re_match rules xs).
  - destruct (tree_rules_loop re_match rules (entry_name x)) as [[|]|e] eqn:El.
    + now destruct (apply_whitelist re_match rules xs).
    + exact IH.
    + now elim (H x (or_introl eq_refl) Ep e).
Qed.

End WalkFacts.

(** C6 (as amended).  A rule that is not a regular expression is not
    checked before the filtering; it raises when, and only when, a file
    or an entry is tried against it.  In the archiver that is a file
    which is not named like the archive and does not contain [.git], for
    which the directory test and the pattern of every earlier rule
    failed, and for which the directory test of the rule at fault failed
    too; the files walked before it have been filtered and written, the
    error ends the walk and is logged as an archive failure.  In the
    in-place whitelist that is an entry which is not protected, under the
    same conditions on the rules; the entries before it have been
    treated, that entry and the later ones are left, and the error is not
    caught.  When no file, or no entry, reaches such a rule, no error is
    raised at all. *)
Theorem malformed_rule_noticed_per_file :
  forall (re_match : string -> string -> option bool),
    (forall rules sep f e,
        zip_filter re_match rules sep f = Raise e <->
        PyStr.contains ".git" (match_path sep f) = false /\
        exists before p after,
          rules = (before ++ p :: after)%list /\
          e = ReError (PyStr.strip p) /\
          (forall q, In q before ->
             (PyStr.endswith "/" (PyStr.strip q)
              && PyStr.startswith (PyStr.strip q) (match_path sep f)) = false /\
             re_match (PyStr.strip q) (w_file f) = Some false) /\
          (PyStr.endswith "/" (PyStr.strip p)
           && PyStr.startswith (PyStr.strip p) (match_path sep f)) = false /\
          re_match (PyStr.strip p) (w_file f) = None)
    /\
    (forall name type_label rules sep files written pattern,
        walk_loop re_match name type_label rules sep files []
        = (written, Raise (ReError pattern)) <->
        exists pre f post,
          files = (pre ++ f :: post)%list /\
          walk_loop re_match name type_label rules sep pre [] = (written, Ok tt) /\
          (w_file f =? name) = false /\
          (type_label =? "LOCAL_ZIP") = true /\
          zip_filter re_match rules sep f = Raise (ReError pattern))
    /\
    (forall name rules sep pre f post written e before,
        walk_loop re_match name "LOCAL_ZIP" rules sep pre [] = (written, Ok tt) ->
        (w_file f =? name) = false ->
        zip_filter re_match rules sep f = Raise e ->
        create_backup re_match name "LOCAL_ZIP" rules sep (pre ++ f :: post)%list
                      before true
        = mk_backup (Some written) ("ERROR", "Archive FAILED"))
    /\
    (forall name rules sep files before,
        (forall f, In f files -> (w_file f =? name) = false ->
                   forall e, zip_filter re_match rules sep f <> Raise e) ->
        (forall f, In f files -> w_readable f = true) ->
        logged (create_backup re_match name "LOCAL_ZIP" rules sep files before true)
        = ("INFO", "Archive SUCCESS"))
    /\
    (forall rules item e,
        tree_rules_loop re_match rules item = Raise e <->
        exists before p after,
          rules = (before ++ p :: after)%list /\
          e = ReError p /\
          (forall q, In q before ->
             (PyStr.endswith "/" q && (item =? PyStr.drop_last q)) = false /\
             re_match q item = Some false) /\
          (PyStr.endswith "/" p && (item =? PyStr.drop_last p)) = false /\
          re_match p item = None)
    /\
    (forall rules items left e,
        apply_whitelist re_match rules items = (left, Raise e) <->
        exists pre t post kept,
          items = (pre ++ t :: post)%list /\
          apply_whitelist re_match rules pre = (kept, Ok tt) /\
          is_protected (entry_name t) = false /\
          tree_rules_loop re_match rules (entry_name t) = Raise e /\
          left = (kept ++ t :: post)%list)
    /\
    (forall rules items,
        (forall t, In t items -> is_protected (entry_name t) = false ->
                   forall e, tree_rules_loop re_match rules (entry_name t)
                             <> Raise e) ->
        snd (apply_whitelist re_match rules items) = Ok tt)
    /\
    (forall env cfg h left e,
        apply_whitelist re_match (RELEASE_WHITELIST (ReleaseWhiteList cfg))
                        (listdir env h) = (left, Raise e) ->
        apply_whitelist_run re_match env cfg h
        = ((h ++ [TreeLeft left])%list, Uncaught e)).
Proof.
  intros re_match. repeat apply conj.
  - intros rules sep f e. apply zip_filter_raise.
  - intros name type_label rules sep files written pattern. apply walk_loop_raise.
  - intros name rules sep pre f post written e before Hpre Hname Hf.
    unfold create_backup.
    rewrite (walk_loop_app re_match _ _ _ _ pre (f :: post) [] written Hpre).
    cbn [walk_loop]. rewrite Hname. cbn. now rewrite Hf.
  - intros name rules sep files before Hf Hr. unfold create_backup.
    pose proof (walk_loop_ok re_match name "LOCAL_ZIP" rules sep files [] Hf Hr) as H.
    destruct (walk_loop re_match name "LOCAL_ZIP" rules sep files []) as [ms r].
    cbn in H. now subst r.
  - intros rules item e. apply tree_rules_loop_raise.
  - intros rules items left e. apply apply_whitelist_raise.
  - intros rules items. apply apply_whitelist_ok.
  - intros env cfg h left e H.
    unfold apply_whitelist_run, bind, ask. now rewrite H.
Qed.

Lemma malformed_rule_noticed_per_file_witness :
  create_backup Re.re_match "backup.zip" "LOCAL_ZIP" ["manifest.xml"; "("] "/"%char
    ([mk_walked [] "manifest.xml" true] ++ mk_walked [] "notes.md" true
       :: [mk_walked [] "zzz.txt" true])%list None true
  = mk_backup (Some ["manifest.xml"]) ("ERROR", "Archive FAILED").
Proof.
  apply (proj1 (proj2 (proj2 (malformed_rule_noticed_per_file Re.re_match)))
           "backup.zip" ["manifest.xml"; "("] "/"%char
           [mk_walked [] "manifest.xml" true] (mk_walked [] "notes.md" true)
           [mk_walked [] "zzz.txt" true] ["manifest.xml"] (ReError "(") None).
  - vm_compute. reflexivity.
  - vm_compute. reflexivity.
  - vm_compute. reflexivity.
Defined.

(** C6 as stated fails: with the rules [manifest.xml] and [(] the file
    [manifest.xml] is filtered and archived before the error shows at
    [notes.md], and on a tree where every file matches the first rule the
    malformed rule is never noticed. *)
Lemma malformed_rule_not_fail_fast :
  Re.compile "(" = Re.Malformed
  /\ create_backup Re.re_match "backup.zip" "LOCAL_ZIP" ["manifest.xml"; "("] "/"%char
       [mk_walked [] "manifest.xml" true; mk_walked [] "notes.md" true] None true
     = mk_backup (Some ["manifest.xml"]) ("ERROR", "Archive FAILED")
  /\ create_backup Re.re_match "backup.zip" "LOCAL_ZIP" ["manifest.xml"; "("] "/"%char
       [mk_walked [] "manifest.xml" true] None true
     = mk_backup (Some ["manifest.xml"]) ("INFO", "Archive SUCCESS")
  /\ apply_whitelist Re.re_match ["manifest.xml"; "("]
       [File "manifest.xml"; File "sync.py"]
     = ([File "manifest.xml"; File "sync.py"], Ok tt).
Proof. vm_compute. repeat split. Qed.

Section BackupRunFacts.

Variable re_match : string -> string -> option bool.
Variable re_sub : string -> string -> string -> string.
Variable format_name : string -> name_fields -> option string.
Variable VS_CODE_PATH : string.
Variable log_path : string.
Variable env : environment.
Variable cfg : settings.






End BackupRunFacts.




(* ================================================================== *)
(** ** The in-place whitelist                                          *)
(* ================================================================== *)

Section ApplyWhitelistFacts.
Import PyStr.

Variable re_match : string -> string -> option bool.
Variable rules : list string.

Lemma tree_rule_matches_spec (item p : string) :
  tree_rule_matches re_match item p = true <->
  (endswith "/" p = true /\ item = drop_last p) \/ re_match p item = Some true.
Proof.
  unfold tree_rule_matches. rewrite orb_true_iff, andb_true_iff, String.eqb_eq.
  split; intros [H|H]; auto.
  - right. now destruct (re_match p item) as [[|]|].
  - right. now rewrite H.
Qed.

Lemma tree_rules_loop_false (item : string) :
  tree_rules_loop re_match rules item = Ok false ->
  forall p, In p rules -> tree_rule_matches re_match item p = false.
Proof.
  induction rules as [|r rs IH]; intros H p Hin; [destruct Hin|].
  cbn [tree_rules_loop] in H.
  destruct (endswith "/" r && (item =? drop_last r)) eqn:Ed; [discriminate|].
  destruct (re_match r item) as [[|]|] eqn:Em; try discriminate.
  destruct Hin as [<-|Hin]; [|now apply IH].
  unfold tree_rule_matches. now rewrite Ed, Em.
Qed.

Lemma tree_rules_loop_no_raise (item : string) :
  (forall p, In p rules -> re_match p item <> None) ->
  tree_rules_loop re_match rules item
  = Ok (existsb (tree_rule_matches re_match item) rules).
Proof.
  induction rules as [|r rs IH]; intros Hwf; [reflexivity|].
  cbn [tree_rules_loop existsb]. unfold tree_rule_matches at 1.
  destruct (endswith "/" r && (item =? drop_last r)); [reflexivity|].
  cbn [orb].
  destruct (re_match r item) as [[|]|] eqn:E.
  - reflexivity.
  - apply IH. intros q Hq. apply Hwf. now right.
  - exfalso. apply (Hwf r); [now left | exact E].
Qed.

Lemma apply_whitelist_keeps_protected (items : list tree) (t : tree) :
  In t items -> is_protected (entry_name t) = true ->
  In t (fst (apply_whitelist re_match rules items)).
Proof.
  induction items as [|x xs IH]; intros Hin Hp; [destruct Hin|].
  cbn [apply_whitelist].
  destruct Hin as [->|Hin].
  - rewrite Hp. destruct (apply_whitelist re_match rules xs). now left.
  - specialize (IH Hin Hp).
    destruct (is_protected (entry_name x)).
    + destruct (apply_whitelist re_match rules xs). now right.
    + destruct (tree_rules_loop re_match rules (entry_name x)) as [[|]|e].
      * destruct (apply_whitelist re_match rules xs). now right.
      * exact IH.
      * now right.
Qed.

Lemma apply_whitelist_kept_unchanged (items : list tree) (t : tree) :
  In t (fst (apply_whitelist re_match rules items)) -> In t items.
Proof.
  induction items as [|x xs IH]; [now cbn|].
  cbn [apply_whitelist].
  destruct (is_protected (entry_name x)).
  - destruct (apply_whitelist re_match rules xs) as [k r].
    cbn in *. intros [->|H]; [now left | right; now apply IH].
  - destruct (tree_rules_loop re_match rules (entry_name x)) as [[|]|e].
    + destruct (apply_whitelist re_match rules xs) as [k r].
      cbn in *. intros [->|H]; [now left | right; now apply IH].
    + intros H. right. now apply IH.
    + now cbn.
Qed.

Lemma apply_whitelist_removed_failed (items : list tree) (t : tree) :
  In t items -> ~ In t (fst (apply_whitelist re_match rules items)) ->
  is_protected (entry_name t) = false /\
  forall p, In p rules -> tree_rule_matches re_match (entry_name t) p = false.
Proof.
  induction items as [|x xs IH]; intros Hin Hout; [destruct Hin|].
  cbn [apply_whitelist] in Hout.
  destruct (is_protected (entry_name x)) eqn:Hp.
  - destruct (apply_whitelist re_match rules xs) as [k r]. cbn in *.
    destruct Hin as [->|Hin]; [elim Hout; now left|].
    apply IH; [exact Hin | intros H; apply Hout; now right].
  - destruct (tree_rules_loop re_match rules (entry_name x)) as [[|]|e] eqn:Hl.
    + destruct (apply_whitelist re_match rules xs) as [k r]. cbn in *.
      destruct Hin as [->|Hin]; [elim Hout; now left|].
      apply IH; [exact Hin | intros H; apply Hout; now right].
    + destruct Hin as [->|Hin].
      * split; [exact Hp | now apply tree_rules_loop_false].
      * now apply IH.
    + elim Hout. exact Hin.
Qed.

(** Only the names of the entries decide. *)
Lemma apply_whitelist_by_name (items1 items2 : list tree) :
  map entry_name items1 = map entry_name items2 ->
  map entry_name (fst (apply_whitelist re_match rules items1))
  = map entry_name (fst (apply_whitelist re_match rules items2))
  /\ snd (apply_whitelist re_match rules items1)
     = snd (apply_whitelist re_match rules items2).
Proof.
  revert items2; induction items1 as [|x xs IH]; intros [|y ys] E;
    try discriminate; [now split|].
  cbn in E. injection E as En Es.
  destruct (IH ys Es) as [IH1 IH2].
  cbn [apply_whitelist]. rewrite <- En.
  destruct (is_protected (entry_name x)).
  - destruct (apply_whitelist re_match rules xs) as [k1 r1],
             (apply_whitelist re_match rules ys) as [k2 r2].
    cbn in *. now rewrite En, IH1, IH2.
  - destruct (tree_rules_loop re_match rules (entry_name x)) as [[|]|e].
    + destruct (apply_whitelist re_match rules xs) as [k1 r1],
               (apply_whitelist re_match rules ys) as [k2 r2].
      cbn in *. now rewrite En, IH1, IH2.
    + now split.
    + cbn. now rewrite En, Es.
Qed.

(** When no rule raises, the tree left is the entries that are
    protected or match a rule. *)
Lemma apply_whitelist_no_raise (items : list tree) :
  (forall t p, In t items -> In p rules -> re_match p (entry_name t) <> None) ->
  apply_whitelist re_match rules items
  = (filter (fun t => is_protected (entry_name t)
                      || existsb (tree_rule_matches re_match (entry_name t)) rules)
            items, Ok tt).
Proof.
  induction items as [|x xs IH]; intros Hwf; [reflexivity|].
  cbn [apply_whitelist filter].
  rewrite IH by (intros t p Ht Hp; apply Hwf; [now right | exact Hp]).
  destruct (is_protected (entry_name x)); [reflexivity|].
  rewrite tree_rules_loop_no_raise
    by (intros p Hp; apply Hwf; [now left | exact Hp]).
  cbn [orb].
  now destruct (existsb (tree_rule_matches re_match (entry_name x)) rules).
Qed.

End ApplyWhitelistFacts.

(** C9.  Whatever the rules, the in-place whitelist leaves [.git],
    [sync.py] and [config_sync.ini] in the working tree; every entry it
    leaves is an entry of the tree, unchanged; and an entry that is gone
    is not one of those three and fails every rule. *)
Theorem apply_whitelist_frame :
  forall (re_match : string -> string -> option bool) (rules : list string)
         (items : list tree),
    let kept := fst (apply_whitelist re_match rules items) in
    (forall t, In t items ->
               entry_name t = ".git" \/ entry_name t = "sync.py"
               \/ entry_name t = "config_sync.ini" ->
               In t kept)
    /\ (forall t, In t kept -> In t items)
    /\ (forall t, In t items -> ~ In t kept ->
          entry_name t <> ".git" /\ entry_name t <> "sync.py"
          /\ entry_name t <> "config_sync.ini"
          /\ forall p, In p rules ->
               (PyStr.endswith "/" p && (entry_name t =? PyStr.drop_last p)) = false
               /\ re_match p (entry_name t) <> Some true).
Proof.
  intros re_match rules items kept. subst kept. split; [|split].
  - intros t Hin Hname. apply apply_whitelist_keeps_protected; [exact Hin|].
    unfold is_protected.
    destruct Hname as [E | [E | E]]; rewrite E; reflexivity.
  - apply apply_whitelist_kept_unchanged.
  - intros t Hin Hout.
    destruct (apply_whitelist_removed_failed re_match rules items t Hin Hout)
      as [Hp Hr].
    unfold is_protected in Hp.
    apply orb_false_iff in Hp as [H1 H2]. apply orb_false_iff in H2 as [H2 H3].
    apply String.eqb_neq in H1, H2, H3.
    repeat split; try assumption.
    + specialize (Hr p H). unfold tree_rule_matches in Hr.
      now apply orb_false_iff in Hr as [Hr _].
    + specialize (Hr p H). unfold tree_rule_matches in Hr.
      apply orb_false_iff in Hr as [_ Hr]. intros E. now rewrite E in Hr.
Qed.

Lemma apply_whitelist_frame_witness :
  In (Dir ".git" [File "HEAD"])
     (fst (apply_whitelist Re.re_match ["Plugin/"; ".*\.md$"]
             [File "junk.tmp"; Dir ".git" [File "HEAD"]; File "sync.py"])).
Proof.
  apply (proj1 (apply_whitelist_frame Re.re_match ["Plugin/"; ".*\.md$"]
                  [File "junk.tmp"; Dir ".git" [File "HEAD"]; File "sync.py"])).
  - right. now left.
  - now left.
Defined.

(** C10 (as amended).  The in-place whitelist decides on the names of
    the top-level entries only.  A rule retains an entry when it ends with
    [/] and the name equals the rule without that slash (equality, not
    prefix), or when the rule - whether or not it ends with [/] - matches
    the name as a regular expression.  An entry that is kept is kept whole:
    what is below a retained directory is not looked at. *)
Theorem apply_whitelist_top_level_only :
  forall (re_match : string -> string -> option bool) (rules : list string),
    (forall item p,
        tree_rule_matches re_match item p = true <->
        (PyStr.endswith "/" p = true /\ item = PyStr.drop_last p)
        \/ re_match p item = Some true)
    /\
    (forall items,
        (forall t p, In t items -> In p rules ->
                     re_match p (entry_name t) <> None) ->
        apply_whitelist re_match rules items
        = (filter (fun t => is_protected (entry_name t)
                            || existsb (tree_rule_matches re_match (entry_name t)) rules)
                  items, Ok tt))
    /\
    (forall items1 items2,
        map entry_name items1 = map entry_name items2 ->
        map entry_name (fst (apply_whitelist re_match rules items1))
        = map entry_name (fst (apply_whitelist re_match rules items2)))
    /\
    (forall items t,
        In t (fst (apply_whitelist re_match rules items)) -> In t items).
Proof.
  intros re_match rules. repeat apply conj.
  - apply tree_rule_matches_spec.
  - apply apply_whitelist_no_raise.
  - intros items1 items2 E. now apply apply_whitelist_by_name.
  - apply apply_whitelist_kept_unchanged.
Qed.

Lemma apply_whitelist_top_level_only_witness :
  apply_whitelist Re.re_match ["Plugin/"; ".*\.md$"]
    [Dir "Plugin" [File "a.dll"; File "debug.log"]; Dir "Plugins" [];
     File "notes.md"; File "secret.key"; Dir ".git" []]
  = ([Dir "Plugin" [File "a.dll"; File "debug.log"]; File "notes.md"; Dir ".git" []],
     Ok tt).
Proof.
  apply (proj1 (proj2 (apply_whitelist_top_level_only Re.re_match
                         ["Plugin/"; ".*\.md$"]))
           [Dir "Plugin" [File "a.dll"; File "debug.log"]; Dir "Plugins" [];
            File "notes.md"; File "secret.key"; Dir ".git" []]).
  intros t p Ht Hp.
  repeat (destruct Ht as [<-|Ht]; [repeat (destruct Hp as [<-|Hp];
            [vm_compute; discriminate|]); destruct Hp|]).
  destruct Ht.
Defined.

(** C10 as stated fails: the rule [a|/] ends with [/] and the entry [a]
    is not the rule without its slash, yet the entry is retained, because
    the rule is also tried as a regular expression. *)
Lemma directory_rule_also_regex :
  ~ (tree_rules_loop Re.re_match ["a|/"] "a" = Ok true
     <-> "a" = PyStr.drop_last "a|/")
  /\ PyStr.endswith "/" "a|/" = true
  /\ ("a" =? PyStr.drop_last "a|/") = false
  /\ Re.re_match "a|/" "a" = Some true
  /\ tree_rules_loop Re.re_match ["a|/"] "a" = Ok true
  /\ apply_whitelist Re.re_match ["a|/"] [File "a"] = ([File "a"], Ok tt).
Proof.
  split; [|vm_compute; repeat split].
  intros [H _]. assert (E : "a" = PyStr.drop_last "a|/") by (apply H; reflexivity).
  vm_compute in E. discriminate.
Qed.

(* ================================================================== *)
(** ** The changelog                                                   *)
(* ================================================================== *)

Section ReplaceFacts.
Import PyStr.

Lemma contains_cons (sub : string) (c : ascii) (s : string) :
  contains sub s = true -> contains sub (String c s) = true.
Proof. intros H. cbn [contains]. rewrite H. apply orb_true_r. Qed.

Lemma contains_false_cons (sub : string) (c : ascii) (s : string) :
  contains sub (String c s) = false ->
  String.prefix sub (String c s) = false /\ contains sub s = false.
Proof. cbn [contains]. intros H. now apply orb_false_iff in H. Qed.

(** The characters of a replaced occurrence are jumped over. *)
Lemma replace_from_skip (old new a b : string) :
  replace_from old new (String.length a) (a ++ b) = replace_from old new 0 b.
Proof.
  induction a as [|c a IH]; [reflexivity|].
  cbn [String.length append replace_from]. exact IH.
Qed.

Lemma replace_from_absent (old new s : string) :
  contains old s = false -> replace_from old new 0 s = s.
Proof.
  induction s as [|c s IH]; intros H; [reflexivity|].
  apply contains_false_cons in H as [Hp Hc].
  cbn [replace_from]. rewrite Hp. now rewrite IH.
Qed.

Lemma replace_from_prefix (old new : string) (c : ascii) (o b : string) :
  old = String c o ->
  replace_from old new 0 (old ++ b) = new ++ replace_from old new 0 b.
Proof.
  intros E. subst old. pose proof (prefix_app (String c o) b) as Hp.
  cbn [append] in *. cbn [replace_from]. rewrite Hp.
  replace (String.length (String c o) - 1) with (String.length o)
    by (cbn [String.length]; lia).
  now rewrite replace_from_skip.
Qed.

Lemma occurrences_zero_absent (old s : string) :
  occurrences old s = 0 -> contains old s = false.
Proof.
  induction s as [|c s IH]; cbn [occurrences contains].
  - destruct (String.prefix old ""); [discriminate | reflexivity].
  - destruct (String.prefix old (String c s)); [discriminate|].
    intros H. cbn in H. now rewrite IH.
Qed.

Lemma contains_app_r (old a b : string) :
  contains old (a ++ b) = false -> contains old b = false.
Proof.
  intros H. destruct (contains old b) eqn:E; [|reflexivity].
  now rewrite (contains_app_l old a b E) in H.
Qed.

(** One occurrence: one replacement, in place. *)
Lemma replace_from_once (old new : string) (c : ascii) (o : string) (s : string) :
  old = String c o ->
  occurrences old s = 1 ->
  exists a b, s = a ++ old ++ b /\ replace_from old new 0 s = a ++ new ++ b.
Proof.
  intros E. induction s as [|x s IH]; intros H.
  - cbn in H. rewrite E in H. discriminate.
  - cbn [occurrences] in H.
    destruct (String.prefix old (String x s)) eqn:Hp.
    + injection H as H0. apply occurrences_zero_absent in H0.
      apply prefix_split in Hp as [b Hb].
      exists "", b. split; [exact Hb|].
      rewrite Hb, (replace_from_prefix old new c o b E). cbn [append]. f_equal.
      apply replace_from_absent.
      rewrite E in Hb. cbn [append] in Hb. injection Hb as _ ->.
      now apply contains_app_r in H0.
    + cbn in H. destruct (IH H) as (a & b & -> & Hr).
      exists (String x a), b. split; [reflexivity|].
      cbn [replace_from]. rewrite Hp, Hr. reflexivity.
Qed.

(** Where [old] occurs, what replaces it occurs afterwards. *)
Lemma replace_from_leaves_new (old new : string) (c : ascii) (o : string) (sub : string) (s : string) :
  old = String c o ->
  contains sub new = true ->
  contains old s = true ->
  contains sub (replace_from old new 0 s) = true.
Proof.
  intros E Hnew. induction s as [|x s IH]; intros H.
  - cbn in H. rewrite E in H. discriminate.
  - cbn [replace_from].
    destruct (String.prefix old (String x s)) eqn:Hp.
    + apply contains_split in Hnew as (u & v & ->).
      rewrite !app_assoc_str. apply contains_intro.
    + cbn [contains] in H. rewrite Hp in H. cbn in H.
      apply contains_cons. now apply IH.
Qed.

End ReplaceFacts.

Section ChangelogFacts.
Import PyStr.

Lemma replace_title (new s : string) :
  replace changelog_title new s = replace_from changelog_title new 0 s.
Proof. reflexivity. Qed.

Lemma title_is_cons :
  changelog_title = String "#" (" Changelog" ++ nl ++ nl).
Proof. reflexivity. Qed.

(** The title holds no section header. *)
Lemma title_has_no_header (version : string) :
  contains (section_header version) changelog_title = false.
Proof. reflexivity. Qed.

Lemma entry_has_header (version date commits : string) :
  contains (section_header version)
           (changelog_title ++ changelog_entry version date commits) = true.
Proof.
  unfold changelog_entry. rewrite <- (app_empty_r changelog_title) at 1.
  rewrite !app_assoc_str. cbn [append].
  apply (contains_intro (section_header version) changelog_title).
Qed.

(** With the header present nothing is written. *)
Lemma changelog_header_present (version date commits : string) (doc : option string) :
  contains (section_header version) (changelog_content doc) = true ->
  changelog_write version date commits doc = None.
Proof. intros H. unfold changelog_write. now rewrite H. Qed.

(** After a call the header is there, or the title is not. *)
Lemma changelog_after_settled (version date commits : string) (doc : option string) :
  let doc' := changelog_after version date commits doc in
  contains (section_header version) (changelog_content doc') = true
  \/ (doc' = Some (changelog_content doc)
      /\ contains changelog_title (changelog_content doc) = false
      /\ contains (section_header version) (changelog_content doc) = false).
Proof.
  unfold changelog_after, changelog_write.
  destruct (contains (section_header version) (changelog_content doc)) eqn:Hh;
    cbn [negb]; [now left|].
  destruct (contains changelog_title (changelog_content doc)) eqn:Ht.
  - left. cbn [changelog_content]. rewrite replace_title.
    apply (replace_from_leaves_new _ _ _ _ _ _ title_is_cons); [|exact Ht].
    apply entry_has_header.
  - right. rewrite replace_title, replace_from_absent by exact Ht. now split.
Qed.

Lemma changelog_second_call (version date1 commits1 date2 commits2 : string)
      (doc : option string) :
  changelog_after version date2 commits2
    (changelog_after version date1 commits1 doc)
  = changelog_after version date1 commits1 doc.
Proof.
  destruct (changelog_after_settled version date1 commits1 doc) as [H|(E & Ht & Hh)].
  - unfold changelog_after at 1.
    now rewrite changelog_header_present.
  - rewrite E. unfold changelog_after, changelog_write.
    cbn [changelog_content]. rewrite Hh. cbn [negb].
    now rewrite replace_title, replace_from_absent.
Qed.

End ChangelogFacts.

(** C3 (as amended).  When the section header of the version is already
    in the document nothing is written; a second call for the same version
    leaves the document of the first call as it is; and the first call
    puts in one copy of the entry when the title block occurs once in the
    document, and none when it does not occur. *)
Theorem changelog_idempotent :
  forall (version date1 commits1 date2 commits2 : string) (doc : option string),
    (PyStr.contains (section_header version) (changelog_content doc) = true ->
     changelog_write version date1 commits1 doc = None
     /\ changelog_after version date1 commits1 doc = doc)
    /\
    changelog_after version date2 commits2
      (changelog_after version date1 commits1 doc)
    = changelog_after version date1 commits1 doc
    /\
    (PyStr.contains (section_header version) (changelog_content doc) = false ->
     PyStr.occurrences changelog_title (changelog_content doc) = 1 ->
     exists a b,
       changelog_content doc = a ++ changelog_title ++ b /\
       changelog_after version date1 commits1 doc
       = Some (a ++ changelog_title ++ changelog_entry version date1 commits1 ++ b))
    /\
    (PyStr.contains (section_header version) (changelog_content doc) = false ->
     PyStr.occurrences changelog_title (changelog_content doc) = 0 ->
     changelog_after version date1 commits1 doc = Some (changelog_content doc)).
Proof.
  intros version date1 commits1 date2 commits2 doc. split; [|split; [|split]].
  - intros H. unfold changelog_after.
    now rewrite (changelog_header_present version date1 commits1 doc H).
  - apply changelog_second_call.
  - intros Hh Hone.
    destruct (replace_from_once changelog_title
                (changelog_title ++ changelog_entry version date1 commits1)
                _ _ (changelog_content doc) title_is_cons Hone)
      as (a & b & E & Hr).
    exists a, b. split; [exact E|].
    unfold changelog_after, changelog_write. rewrite Hh. cbn [negb].
    rewrite replace_title, Hr. now rewrite app_assoc_str.
  - intros Hh Hzero. apply occurrences_zero_absent in Hzero.
    unfold changelog_after, changelog_write. rewrite Hh. cbn [negb].
    now rewrite replace_title, replace_from_absent.
Qed.

Lemma changelog_idempotent_witness :
  changelog_write "1.0" "2026-01-01" "- fix"
    (Some (changelog_title ++ "## [1.0] - 2025-12-31" ++ nl ++ "- old" ++ nl ++ nl))
  = None
  /\ changelog_after "1.0" "2026-01-01" "- fix"
       (Some (changelog_title ++ "## [1.0] - 2025-12-31" ++ nl ++ "- old" ++ nl ++ nl))
     = Some (changelog_title ++ "## [1.0] - 2025-12-31" ++ nl ++ "- old" ++ nl ++ nl).
Proof.
  apply (proj1 (changelog_idempotent "1.0" "2026-01-01" "- fix" "2026-01-02" "- other"
                  (Some (changelog_title ++ "## [1.0] - 2025-12-31" ++ nl
                           ++ "- old" ++ nl ++ nl)))).
  vm_compute. reflexivity.
Defined.

(** C3 as stated fails: in a document where the title block occurs twice
    the first call puts in two sections for the version. *)
Lemma changelog_two_sections :
  changelog_after "1.0" "2026-01-01" "- fix"
    (Some (changelog_title ++ "Older notes" ++ nl ++ changelog_title))
  = Some (changelog_title ++ "## [1.0] - 2026-01-01" ++ nl ++ "- fix" ++ nl ++ nl
          ++ "Older notes" ++ nl
          ++ changelog_title ++ "## [1.0] - 2026-01-01" ++ nl ++ "- fix" ++ nl ++ nl)
  /\ PyStr.occurrences (section_header "1.0")
       (changelog_content
          (changelog_after "1.0" "2026-01-01" "- fix"
             (Some (changelog_title ++ "Older notes" ++ nl ++ changelog_title))))
     = 2
  /\ PyStr.contains (section_header "1.0")
       (changelog_title ++ "Older notes" ++ nl ++ changelog_title) = false.
Proof. vm_compute. repeat split. Qed.

(** C7 (as amended).  A changelog that does not exist is created as the
    title line, a blank line and the entry.  In a changelog that begins
    with the title block ["# Changelog\n\n"] the entry comes right after
    it, before everything that was there.  In a changelog that does not
    hold that title block nothing is inserted. *)
Theorem changelog_entry_after_title :
  forall (version date commits : string),
    changelog_after version date commits None
    = Some (changelog_title ++ changelog_entry version date commits)
    /\
    (forall rest,
        PyStr.contains (section_header version) (changelog_title ++ rest) = false ->
        changelog_after version date commits (Some (changelog_title ++ rest))
        = Some (changelog_title ++ changelog_entry version date commits
                  ++ PyStr.replace changelog_title
                       (changelog_title ++ changelog_entry version date commits)
                       rest))
    /\
    (forall rest,
        PyStr.contains (section_header version) (changelog_title ++ rest) = false ->
        PyStr.contains changelog_title rest = false ->
        changelog_after version date commits (Some (changelog_title ++ rest))
        = Some (changelog_title ++ changelog_entry version date commits ++ rest))
    /\
    (forall text,
        PyStr.contains (section_header version) text = false ->
        PyStr.contains changelog_title text = false ->
        changelog_after version date commits (Some text) = Some text).
Proof.
  intros version date commits.
  assert (Hstart : forall rest,
             PyStr.contains (section_header version) (changelog_title ++ rest) = false ->
             changelog_after version date commits (Some (changelog_title ++ rest))
             = Some (changelog_title ++ changelog_entry version date commits
                       ++ PyStr.replace changelog_title
                            (changelog_title ++ changelog_entry version date commits)
                            rest)).
  { intros rest Hh. unfold changelog_after, changelog_write.
    cbn [changelog_content]. rewrite Hh. cbn [negb].
    rewrite !replace_title.
    rewrite (replace_from_prefix _ _ _ _ rest title_is_cons).
    now rewrite app_assoc_str. }
  repeat apply conj.
  - unfold changelog_after, changelog_write. cbn [changelog_content].
    rewrite title_has_no_header. cbn [negb].
    rewrite replace_title.
    rewrite <- (app_empty_r changelog_title) at 2.
    rewrite (replace_from_prefix _ _ _ _ "" title_is_cons).
    cbn [PyStr.replace_from]. now rewrite app_empty_r.
  - exact Hstart.
  - intros rest Hh Ht. rewrite (Hstart rest Hh).
    now rewrite replace_title, replace_from_absent.
  - intros text Hh Ht. unfold changelog_after, changelog_write.
    cbn [changelog_content]. rewrite Hh. cbn [negb].
    now rewrite replace_title, replace_from_absent.
Qed.

Lemma changelog_entry_after_title_witness :
  changelog_after "1.1" "2026-01-01" "- fix"
    (Some (changelog_title ++ "## [1.0] - 2025-12-31" ++ nl ++ "- old" ++ nl ++ nl))
  = Some (changelog_title ++ changelog_entry "1.1" "2026-01-01" "- fix"
            ++ "## [1.0] - 2025-12-31" ++ nl ++ "- old" ++ nl ++ nl).
Proof.
  apply (proj1 (proj2 (proj2 (changelog_entry_after_title "1.1" "2026-01-01" "- fix")))
           ("## [1.0] - 2025-12-31" ++ nl ++ "- old" ++ nl ++ nl)).
  - vm_compute. reflexivity.
  - vm_compute. reflexivity.
Defined.

(** C7 as stated fails: a changelog whose title line is not followed by a
    blank line gets no entry for the new version. *)
Lemma changelog_entry_dropped :
  changelog_after "1.1" "2026-01-01" "- fix"
    (Some ("# Changelog" ++ nl ++ "## [1.0] - 2025-12-31" ++ nl ++ "- old" ++ nl ++ nl))
  = Some ("# Changelog" ++ nl ++ "## [1.0] - 2025-12-31" ++ nl ++ "- old" ++ nl ++ nl)
  /\ PyStr.contains (section_header "1.1")
       ("# Changelog" ++ nl ++ "## [1.0] - 2025-12-31" ++ nl ++ "- old" ++ nl ++ nl)
     = false.
Proof. vm_compute. split; reflexivity. Qed.

(* ================================================================== *)
(** ** The version                                                     *)
(* ================================================================== *)

Section VersionFacts.
Import PyStr.

Lemma truthy_nonempty (s : string) : s <> "" -> truthy s = true.
Proof. destruct s; [intros H; now elim H | reflexivity]. Qed.

Lemma truthy_empty (s : string) : s = "" -> truthy s = false.
Proof. now intros ->. Qed.



End VersionFacts.



Example version_2_3_1 :
  forall stored,
    get_project_version true (ManifestVersion (Some "2.3.1"))
      (mk_settings "proj" "proj" "1.0.0" "origin" "origin" "dev" "master"
                   "manifest.xml" "README.md" "CHANGELOG.md"
                   default_ReleaseWhiteList "{date}.zip")
      "" stored
    = ("2.3.1", set_DefaultVersion stored "2.3.1").
Proof. reflexivity. Qed.

(* ================================================================== *)
(** ** The release orchestration                                       *)
(* ================================================================== *)

Section OrchestratorFacts.

Variable re_match : string -> string -> option bool.
Variable re_sub : string -> string -> string -> string.
Variable format_name : string -> name_fields -> option string.
Variable env : environment.
Variable cfg : settings.

Lemma commands_app (h1 h2 : list event) :
  commands (h1 ++ h2) = (commands h1 ++ commands h2)%list.
Proof.
  induction h1 as [|e h1 IH]; [reflexivity|].
  destruct e; cbn; now rewrite ?IH.
Qed.

Lemma completes_ret {A : Type} (a : A) : completes (ret a).
Proof. intros h. exists h, a, []. split; [reflexivity | now rewrite app_nil_r]. Qed.

Lemma completes_bind {A B : Type} (m : proc A) (k : A -> proc B) :
  completes m -> (forall a, completes (k a)) -> completes (bind m k).
Proof.
  intros Hm Hk h.
  destruct (Hm h) as (h1 & a & cs1 & E1 & C1).
  destruct (Hk a h1) as (h2 & b & cs2 & E2 & C2).
  exists h2, b, (cs1 ++ cs2)%list. split.
  - unfold bind. now rewrite E1.
  - now rewrite C2, C1, app_assoc.
Qed.

Lemma completes_emit (e : event) : completes (emit e).
Proof.
  intros h. exists (h ++ [e])%list, tt, (commands [e]).
  split; [reflexivity | apply commands_app].
Qed.

Lemma completes_ask {A : Type} (f : list event -> A) : completes (ask f).
Proof. intros h. exists h, (f h), []. split; [reflexivity | now rewrite app_nil_r]. Qed.

Lemma completes_subprocess_run (cmd : string) :
  completes (subprocess_run env cmd).
Proof.
  intros h. eexists; eexists; eexists. split; [reflexivity | apply commands_app].
Qed.

Lemma issues_completes {A : Type} (m : proc A) (cs : list (string * nat)) :
  issues m cs -> completes m.
Proof.
  intros H h. destruct (H h) as (h' & a & E & C). now exists h', a, cs.
Qed.

Lemma issues_bind {A B : Type} (m : proc A) (k : A -> proc B)
      (cs1 cs2 : list (string * nat)) :
  issues m cs1 -> (forall a, issues (k a) cs2) -> issues (bind m k) (cs1 ++ cs2).
Proof.
  intros Hm Hk h.
  destruct (Hm h) as (h1 & a & E1 & C1).
  destruct (Hk a h1) as (h2 & b & E2 & C2).
  exists h2, b. split.
  - unfold bind. now rewrite E1.
  - now rewrite C2, C1, app_assoc.
Qed.

Lemma issues_ret {A : Type} (a : A) : issues (ret a) [].
Proof. intros h. exists h, a. split; [reflexivity | now rewrite app_nil_r]. Qed.

(** What [check_run] does with the return code. *)
Lemma check_run_zero (cmd : string) (exit_on_fail : bool) (h : list event) :
  returncode (sh env (h ++ [Logged "DEBUG" ("EXECUTING: " ++ cmd)]) cmd) = 0 ->
  exists out,
    check_run env cmd exit_on_fail h
    = (((h ++ [Logged "DEBUG" ("EXECUTING: " ++ cmd)]) ++ [Ran cmd 0])%list,
       Normal (Some out)).
Proof.
  intros H. unfold check_run, bind, log_and_print, emit, subprocess_run, ret.
  rewrite H. cbn. eexists. reflexivity.
Qed.

Lemma check_run_nonzero (cmd : string) (h : list event) :
  returncode (sh env (h ++ [Logged "DEBUG" ("EXECUTING: " ++ cmd)]) cmd) <> 0 ->
  exists rc msg,
    rc <> 0 /\
    check_run env cmd true h
    = ((((h ++ [Logged "DEBUG" ("EXECUTING: " ++ cmd)]) ++ [Ran cmd rc])
          ++ [Logged "ERROR" msg])%list, Exit 1).
Proof.
  intros H. unfold check_run, bind, log_and_print, emit, subprocess_run, ret, sys_exit.
  destruct (returncode (sh env (h ++ [Logged "DEBUG" ("EXECUTING: " ++ cmd)]) cmd))
    as [|n] eqn:E; [now elim H|].
  cbn. exists (S n). eexists. split; [discriminate | reflexivity].
Qed.

Section AllSucceed.

(** Every command succeeds, whatever it prints. *)
Hypothesis all_succeed : forall h cmd, returncode (sh env h cmd) = 0.

Lemma issues_check_run (cmd : string) (exit_on_fail : bool) :
  issues (check_run env cmd exit_on_fail) [(cmd, 0)].
Proof.
  intros h.
  destruct (check_run_zero cmd exit_on_fail h (all_succeed _ _)) as [out E].
  eexists; eexists. split; [exact E|].
  rewrite !commands_app. cbn. now rewrite app_nil_r.
Qed.

Lemma completes_check_run (cmd : string) (exit_on_fail : bool) :
  completes (check_run env cmd exit_on_fail).
Proof. eapply issues_completes, issues_check_run. Qed.

Lemma issues_push_update (version : string) :
  issues (push_update env cfg version)
         ([("git checkout " ++ RELEASE_BRANCH cfg, 0);
           ("git pull " ++ ReleaseRemote cfg ++ " " ++ RELEASE_BRANCH cfg, 0)]
            ++ overlay_commit_push cfg version).
Proof.
  unfold push_update, overlay_commit_push.
  repeat (apply (issues_bind _ _ [_] _); [apply issues_check_run | intros _]).
  apply issues_ret.
Qed.

Ltac completes_steps :=
  repeat first
    [ apply completes_ret
    | apply completes_emit
    | apply completes_ask
    | apply completes_subprocess_run
    | apply completes_check_run
    | apply completes_bind; [|intros ?]
    | match goal with
      | |- completes (if ?b then _ else _) => destruct b
      | |- completes (match ?x with _ => _ end) => destruct x
      end ].

Lemma completes_generate_changelog (version : string) :
  completes (generate_changelog env cfg version).
Proof. unfold generate_changelog. completes_steps. Qed.

(** The template of the archive name can be formatted. *)
Hypothesis name_formats :
  forall fields, format_name (BackupFormat cfg) fields <> None.

Lemma completes_create_backup_run (version type_label destination : string) :
  completes (create_backup_run re_match format_name env cfg version
                               type_label destination).
Proof.
  unfold create_backup_run, get_current_branch, log_and_print.
  apply completes_bind; [apply completes_ask | intros date].
  apply completes_bind; [apply completes_ask | intros time].
  apply completes_bind; [completes_steps | intros branch].
  destruct (format_name (BACKUP_NAME_FORMAT cfg)
              (mk_name_fields date time type_label (PROJECT_NAME cfg) "LOCAL"
                              version branch)) as [name|] eqn:En.
  - completes_steps.
  - now elim (name_formats _ En).
Qed.

Lemma completes_finish_update (version notes : string) :
  completes (finish re_sub env cfg version notes false).
Proof. unfold finish. completes_steps. Qed.

(** The working directory is the project folder. *)
Hypothesis cwd_matches : cwd_basename env = LocalFolderName cfg.

Lemma completes_verify_env (is_release_op : bool) :
  completes (verify_env env cfg is_release_op).
Proof.
  unfold verify_env. rewrite cwd_matches, String.eqb_refl. cbn [negb].
  unfold get_current_branch. completes_steps.
Qed.

(** No rule raises on the entries of the working tree. *)
Hypothesis rules_valid :
  forall h, snd (apply_whitelist re_match
                   (RELEASE_WHITELIST (ReleaseWhiteList cfg))
                   (listdir env h)) = Ok tt.

Lemma completes_apply_whitelist_run :
  completes (apply_whitelist_run re_match env cfg).
Proof.
  intros h. unfold apply_whitelist_run, bind, ask.
  pose proof (rules_valid h) as V.
  destruct (apply_whitelist re_match (RELEASE_WHITELIST (ReleaseWhiteList cfg))
                            (listdir env h)) as [kept r].
  cbn in V. subst r. apply completes_emit.
Qed.

Lemma completes_flatten (version : string) (is_deploy : bool) :
  completes (flatten re_match re_sub format_name env cfg version is_deploy).
Proof.
  unfold flatten.
  apply completes_bind; [apply completes_verify_env | intros _].
  apply completes_bind; [apply completes_generate_changelog | intros notes].
  apply completes_bind; [apply completes_ask | intros readme].
  apply completes_bind; [destruct readme; completes_steps | intros _].
  apply completes_bind; [apply completes_check_run | intros _].
  apply completes_bind; [apply completes_subprocess_run | intros status].
  apply completes_bind; [completes_steps | intros _].
  apply completes_bind; [apply completes_create_backup_run | intros _].
  apply completes_bind; [apply completes_subprocess_run | intros _].
  apply completes_bind; [apply completes_check_run | intros _].
  apply completes_bind; [apply completes_apply_whitelist_run | intros _].
  completes_steps.
Qed.

(** With every command succeeding the update runs to its end and
    the overlay, the staging, the commit and the push are among its
    commands, one after the other. *)
Lemma update_runs_through (version : string) (auto : bool) :
  exists h pre post,
    handle_master_sync re_match re_sub format_name env cfg version auto false []
    = (h, Normal tt)
    /\ commands h = (pre ++ overlay_commit_push cfg version ++ post)%list.
Proof.
  unfold handle_master_sync.
  destruct (completes_flatten version false []) as (h1 & notes & cs1 & E1 & C1).
  destruct (issues_push_update version h1) as (h2 & [] & E2 & C2).
  destruct (completes_finish_update version notes h2) as (h3 & [] & cs3 & E3 & C3).
  exists h3,
    (cs1 ++ [(("git checkout " ++ RELEASE_BRANCH cfg)%string, 0);
             (("git pull " ++ ReleaseRemote cfg ++ " "
                 ++ RELEASE_BRANCH cfg)%string, 0)])%list,
    cs3.
  split.
  - unfold bind. rewrite E1, E2. exact E3.
  - rewrite C3, C2, C1. cbn [commands app]. now rewrite <- !app_assoc.
Qed.

End AllSucceed.

End OrchestratorFacts.

Section UpdateGates.

Variable env : environment.
Variable cfg : settings.

Ltac gate :=
  match goal with
  | |- context [bind (check_run ?e ?c true) ?k ?h] =>
      destruct (Nat.eq_dec
                  (returncode (sh e (h ++ [Logged "DEBUG" ("EXECUTING: " ++ c)])%list c))
                  0) as [Z|NZ];
      [ destruct (check_run_zero e c true h Z) as [? E];
        unfold bind at 1; rewrite E; clear E Z
      | destruct (check_run_nonzero e c h NZ) as (? & ? & ? & E);
        unfold bind at 1; rewrite E; clear E NZ ]
  end.

Ltac close_gate :=
  cbn [fst]; rewrite <- ?app_assoc; eexists; split; [reflexivity|];
  cbn [app In]; split; intros Hin;
  repeat (destruct Hin as [Hin|Hin]; [cbn [append] in Hin; try congruence|]);
  try (now destruct Hin);
  try (eexists; cbn [In]; tauto).

(** In the update, nothing but the failure of the command before it
    keeps the commit or the push from being issued. *)
Lemma push_update_gated (version : string) (h : list event) :
  exists evs,
    fst (push_update env cfg version h) = (h ++ evs)%list /\
    (In (Ran "git add -A" 0) evs ->
     exists rc,
       In (Ran ("git commit -m " ++ dq ++ "Update v" ++ version ++ dq
                  ++ " --allow-empty") rc) evs) /\
    (In (Ran ("git commit -m " ++ dq ++ "Update v" ++ version ++ dq
                ++ " --allow-empty") 0) evs ->
     exists rc,
       In (Ran ("git push " ++ ReleaseRemote cfg ++ " " ++ RELEASE_BRANCH cfg) rc)
          evs).
Proof.
  unfold push_update.
  gate; [|close_gate].
  gate; [|close_gate].
  gate; [|close_gate].
  gate; [|close_gate].
  gate; [|close_gate].
  gate; [|close_gate].
  unfold ret. close_gate.
Qed.

End UpdateGates.

(** C5.  In the update mode, once the filtered tree has been overlaid on
    the release branch, the commit with [--allow-empty] and then the push
    are issued whatever the state of the tree: with every command
    succeeding - whatever it prints, so also when [git status] shows no
    change - and a name formatted for the archive that is made on the
    way, the run ends normally and the overlay, the staging, the commit
    and the push are run one after the other; and in any
    environment the commit is issued as soon as the staging after the
    overlay has succeeded, and the push as soon as the commit has. *)
Theorem update_commit_and_push_never_skipped :
  forall (re_match : string -> string -> option bool)
         (re_sub : string -> string -> string -> string)
         (format_name : string -> name_fields -> option string)
         (env : environment) (cfg : settings) (version : string),
    (forall auto,
        (forall h cmd, returncode (sh env h cmd) = 0) ->
        cwd_basename env = LocalFolderName cfg ->
        (forall h, snd (apply_whitelist re_match
                          (RELEASE_WHITELIST (ReleaseWhiteList cfg))
                          (listdir env h)) = Ok tt) ->
        (forall fields, format_name (BackupFormat cfg) fields <> None) ->
        exists h pre post,
          handle_master_sync re_match re_sub format_name env cfg version auto false []
          = (h, Normal tt)
          /\ commands h = (pre ++ overlay_commit_push cfg version ++ post)%list)
    /\
    (forall h,
        exists evs,
          fst (push_update env cfg version h) = (h ++ evs)%list /\
          (In (Ran "git add -A" 0) evs ->
           exists rc,
             In (Ran ("git commit -m " ++ dq ++ "Update v" ++ version ++ dq
                        ++ " --allow-empty") rc) evs) /\
          (In (Ran ("git commit -m " ++ dq ++ "Update v" ++ version ++ dq
                      ++ " --allow-empty") 0) evs ->
           exists rc,
             In (Ran ("git push " ++ ReleaseRemote cfg ++ " " ++ RELEASE_BRANCH cfg) rc)
                evs)).
Proof.
  intros re_match re_sub format_name env cfg version. split.
  - intros auto Hok Hcwd Hrules Hname. now apply update_runs_through.
  - intros h. apply push_update_gated.
Qed.

Lemma update_commit_and_push_never_skipped_witness :
  exists h pre post,
    handle_master_sync Re.re_match (fun _ _ s => s) (fun t _ => Some t)
                       quiet_env sample_cfg "2.3.1" true false []
    = (h, Normal tt)
    /\ commands h = (pre ++ overlay_commit_push sample_cfg "2.3.1" ++ post)%list.
Proof.
  apply (proj1 (update_commit_and_push_never_skipped
                  Re.re_match (fun _ _ s => s) (fun t _ => Some t)
                  quiet_env sample_cfg "2.3.1") true).
  - intros h cmd. reflexivity.
  - reflexivity.
  - intros h. vm_compute. reflexivity.
  - discriminate.
Defined.

(** The commands of an update in the quiet environment: no metadata
    commit and no commit back to the development branch, since nothing
    changed, but the release commit, the update commit and the pushes. *)
Example quiet_update_commands :
  map fst
      (commands (fst (handle_master_sync Re.re_match (fun _ _ s => s) (fun t _ => Some t)
                                         quiet_env sample_cfg "2.3.1" true false [])))
  = ["git rev-parse --abbrev-ref HEAD";
     "git describe --tags --abbrev=0";
     "git log -n 5 --pretty=format:" ++ dq ++ "- %s" ++ dq;
     "git add CHANGELOG.md README.md";
     "git status --porcelain";
     "git rev-parse --abbrev-ref HEAD";
     "git branch -D temp_release_work";
     "git checkout --orphan temp_release_work dev";
     "git add -A";
     "git commit -m " ++ dq ++ "Release v2.3.1" ++ dq ++ " --allow-empty";
     "git checkout master";
     "git pull origin master";
     "git checkout temp_release_work -- .";
     "git add -A";
     "git commit -m " ++ dq ++ "Update v2.3.1" ++ dq ++ " --allow-empty";
     "git push origin master";
     "git tag -a v2.3.1 -m 'v2.3.1'";
     "git push origin v2.3.1";
     "git checkout dev -f";
     "git checkout v2.3.1 -- manifest.xml CHANGELOG.md README.md";
     "git status --porcelain";
     "git branch -D temp_release_work"].
Proof. vm_compute. reflexivity. Qed.

(* ================================================================== *)
(** * Further properties                                               *)
(* ================================================================== *)

(* ------------------------------------------------------------------ *)
(** ** What an archive holds                                           *)
(* ------------------------------------------------------------------ *)

Section ArchiveContent.

Variable re_match : string -> string -> option bool.

Lemma walk_loop_ok_members (name type_label : string) (rules : list string)
      (sep : ascii) (files : list walked) (ms ms' : list string) :
  walk_loop re_match name type_label rules sep files ms = (ms', Ok tt) ->
  ms' = (ms ++ map (rel_path sep)
               (filter (archived_by re_match name type_label rules sep) files))%list.
Proof.
  revert ms; induction files as [|f fs IH]; intros ms H.
  - cbn in H. injection H as <-. cbn. now rewrite app_nil_r.
  - cbn [walk_loop] in H. cbn [filter]. unfold archived_by at 1.
    destruct (w_file f =? name); cbn [negb andb]; [now apply IH|].
    destruct (if type_label =? "LOCAL_ZIP" then zip_filter re_match rules sep f
              else Ok true) as [[|]|e].
    + destruct (w_readable f); [|discriminate].
      rewrite (IH _ H). cbn [map]. now rewrite <- app_assoc.
    + now apply IH.
    + discriminate.
Qed.

Lemma walk_loop_unfiltered (name type_label : string) (rules : list string)
      (sep : ascii) (files : list walked) (ms : list string) :
  (type_label =? "LOCAL_ZIP") = false ->
  (forall f, In f files -> w_readable f = true) ->
  walk_loop re_match name type_label rules sep files ms
  = ((ms ++ map (rel_path sep)
             (filter (fun f => negb (w_file f =? name)) files))%list, Ok tt).
Proof.
  intros Htl. revert ms; induction files as [|f fs IH]; intros ms Hr.
  - cbn. now rewrite app_nil_r.
  - cbn [walk_loop filter]. rewrite Htl.
    assert (Hfs : forall g, In g fs -> w_readable g = true)
      by (intros g Hg; apply Hr; now right).
    destruct (w_file f =? name); cbn [negb]; [now apply IH|].
    rewrite (Hr f (or_introl eq_refl)), (IH _ Hfs).
    cbn [map]. now rewrite <- app_assoc.
Qed.

End ArchiveContent.

Lemma create_backup_success_members
      (re_match : string -> string -> option bool) (name type_label : string)
      (rules : list string) (sep : ascii) (files : list walked)
      (before : option (list string)) (can_create : bool) :
  logged (create_backup re_match name type_label rules sep files before can_create)
  = ("INFO", "Archive SUCCESS") ->
  zip_file (create_backup re_match name type_label rules sep files before can_create)
  = Some (map (rel_path sep)
              (filter (archived_by re_match name type_label rules sep) files)).
Proof.
  intros H. unfold create_backup in *. destruct can_create; [|discriminate].
  destruct (walk_loop re_match name type_label rules sep files [])
    as [ms [[]|e]] eqn:E; [|discriminate].
  cbn. now rewrite (walk_loop_ok_members _ _ _ _ _ _ _ _ E).
Qed.

Lemma archived_by_not_self
      (re_match : string -> string -> option bool) (name type_label : string)
      (rules : list string) (sep : ascii) (f : walked) :
  archived_by re_match name type_label rules sep f = true -> w_file f <> name.
Proof.
  intros Hf. unfold archived_by in Hf.
  apply andb_true_iff in Hf as [Hf _].
  apply negb_true_iff in Hf. now apply String.eqb_neq.
Qed.

(** X1.  An archive that is reported as a success holds, in the order of
    the walk, exactly the files that pass the filter of its kind and are
    not named like the archive itself - in whatever directory they are. *)
Theorem archive_success_members :
  forall (re_match : string -> string -> option bool) (name type_label : string)
         (rules : list string) (sep : ascii) (files : list walked)
         (before : option (list string)) (can_create : bool),
    logged (create_backup re_match name type_label rules sep files before can_create)
    = ("INFO", "Archive SUCCESS") ->
    zip_file (create_backup re_match name type_label rules sep files before can_create)
    = Some (map (rel_path sep)
                (filter (archived_by re_match name type_label rules sep) files))
    /\ forall f, archived_by re_match name type_label rules sep f = true ->
                 w_file f <> name.
Proof.
  intros re_match name type_label rules sep files before can_create H. split.
  - now apply create_backup_success_members.
  - intros f. apply archived_by_not_self.
Qed.

Lemma archive_success_members_witness :
  zip_file (create_backup Re.re_match "backup.zip" "LOCAL_ZIP" ["Plugin/"; ".*\.md$"]
              "/"%char
              [mk_walked ["Plugin"] "a.dll" true; mk_walked ["old"] "backup.zip" true;
               mk_walked [] "notes.md" true; mk_walked [] "secret.key" false]
              None true)
  = Some (map (rel_path "/"%char)
            (filter (archived_by Re.re_match "backup.zip" "LOCAL_ZIP"
                       ["Plugin/"; ".*\.md$"] "/"%char)
               [mk_walked ["Plugin"] "a.dll" true; mk_walked ["old"] "backup.zip" true;
                mk_walked [] "notes.md" true; mk_walked [] "secret.key" false])).
Proof.
  apply (archive_success_members Re.re_match "backup.zip" "LOCAL_ZIP"
           ["Plugin/"; ".*\.md$"] "/"%char
           [mk_walked ["Plugin"] "a.dll" true; mk_walked ["old"] "backup.zip" true;
            mk_walked [] "notes.md" true; mk_walked [] "secret.key" false]
           None true).
  vm_compute. reflexivity.
Defined.

(** X2.  An archive that is not the local whitelisted one is never
    filtered: when the archive can be created and every file can be read
    it succeeds and holds every file of the tree, those below [.git]
    included, but the files named like the archive. *)
Theorem unfiltered_archive_holds_all :
  forall (re_match : string -> string -> option bool) (name type_label : string)
         (rules : list string) (sep : ascii) (files : list walked)
         (before : option (list string)),
    (type_label =? "LOCAL_ZIP") = false ->
    (forall f, In f files -> w_readable f = true) ->
    create_backup re_match name type_label rules sep files before true
    = mk_backup (Some (map (rel_path sep)
                           (filter (fun f => negb (w_file f =? name)) files)))
                ("INFO", "Archive SUCCESS").
Proof.
  intros re_match name type_label rules sep files before Htl Hr.
  unfold create_backup. now rewrite (walk_loop_unfiltered _ _ _ _ _ _ _ Htl Hr).
Qed.

Lemma unfiltered_archive_holds_all_witness :
  create_backup Re.re_match "backup.zip" "FULL_BACKUP" ["Plugin/"] "/"%char
    [mk_walked [".git"] "config" true; mk_walked [] "backup.zip" true;
     mk_walked [] "secret.key" true] None true
  = mk_backup (Some (map (rel_path "/"%char)
                       (filter (fun f => negb (w_file f =? "backup.zip"))
                          [mk_walked [".git"] "config" true;
                           mk_walked [] "backup.zip" true;
                           mk_walked [] "secret.key" true])))
              ("INFO", "Archive SUCCESS").
Proof.
  apply (unfiltered_archive_holds_all Re.re_match "backup.zip" "FULL_BACKUP"
           ["Plugin/"] "/"%char
           [mk_walked [".git"] "config" true; mk_walked [] "backup.zip" true;
            mk_walked [] "secret.key" true] None).
  - reflexivity.
  - intros f [<-|[<-|[<-|[]]]]; reflexivity.
Defined.

(* ------------------------------------------------------------------ *)
(** ** The rules read from the settings                                *)
(* ------------------------------------------------------------------ *)

Section StripFacts.
Import PyStr.

Lemma lstrip_head (s : string) :
  lstrip s = "" \/ exists c r, lstrip s = String c r /\ is_space c = false.
Proof.
  induction s as [|c s IH]; [now left|].
  cbn [lstrip]. destruct (is_space c) eqn:E; [exact IH|].
  right. now exists c, s.
Qed.

Lemma rstrip_idempotent (s : string) : rstrip (rstrip s) = rstrip s.
Proof.
  induction s as [|c s IH]; [reflexivity|].
  cbn [rstrip].
  destruct (is_space c && (rstrip s =? "")) eqn:E; [reflexivity|].
  cbn [rstrip]. rewrite IH, E. reflexivity.
Qed.

Lemma rstrip_keeps_head (c : ascii) (r : string) :
  is_space c = false -> rstrip (String c r) = String c (rstrip r).
Proof. intros H. cbn [rstrip]. now rewrite H. Qed.

Lemma strip_idempotent (s : string) : strip (strip s) = strip s.
Proof.
  unfold strip. destruct (lstrip_head s) as [E | (c & r & E & Hc)]; rewrite E.
  - reflexivity.
  - rewrite (rstrip_keeps_head c r Hc). cbn [lstrip]. rewrite Hc.
    rewrite <- (rstrip_keeps_head c r Hc). apply rstrip_idempotent.
Qed.

Lemma lstrip_all_space (s : string) : all_space s = true -> lstrip s = "".
Proof.
  induction s as [|c s IH]; [reflexivity|].
  cbn [all_space lstrip]. intros H. apply andb_true_iff in H as [Hc Hs].
  rewrite Hc. now apply IH.
Qed.

Lemma strip_all_space (s : string) : all_space s = true -> strip s = "".
Proof. intros H. unfold strip. now rewrite (lstrip_all_space s H). Qed.

(** A field cut at a comma holds no comma. *)
Lemma split_from_last_empty (sep : ascii) (cur s : string) :
  In "" (split_from sep cur (s ++ String sep "")).
Proof.
  revert cur; induction s as [|c s IH]; intros cur.
  - cbn. rewrite Ascii.eqb_refl. right. now left.
  - cbn [append split_from]. destruct (Ascii.eqb c sep); [right|]; apply IH.
Qed.

End StripFacts.

(** X3.  The rules read from [ReleaseWhiteList] carry no white space at
    either end, so the [strip] of the archive filter leaves each of them
    as it is: both whitelist applications test the same patterns. *)
Theorem whitelist_rules_are_stripped :
  forall (ReleaseWhiteList p : string),
    In p (RELEASE_WHITELIST ReleaseWhiteList) -> PyStr.strip p = p.
Proof.
  intros wl p H. unfold RELEASE_WHITELIST in H.
  apply in_map_iff in H as (q & <- & _). apply strip_idempotent.
Qed.

Lemma whitelist_rules_are_stripped_witness :
  PyStr.strip ".*\.md$" = ".*\.md$".
Proof.
  apply (whitelist_rules_are_stripped "Plugin/ ,  .*\.md$ " ".*\.md$").
  vm_compute. right. now left.
Defined.

Section RuleFacts.
Import PyStr.

Variable re_match : string -> string -> option bool.

Lemma endswith_app (p a : string) : endswith p (a ++ p) = true.
Proof.
  induction a as [|c a IH].
  - cbn [append]. destruct p; cbn [endswith]; now rewrite String.eqb_refl.
  - cbn [append endswith]. rewrite IH. apply orb_true_r.
Qed.

Lemma endswith_split (p s : string) :
  endswith p s = true -> exists a, s = a ++ p.
Proof.
  induction s as [|c s IH]; cbn [endswith]; intros H.
  - rewrite orb_false_r in H. apply String.eqb_eq in H as <-. now exists "".
  - apply orb_true_iff in H as [H|H].
    + apply String.eqb_eq in H as <-. now exists "".
    + destruct (IH H) as [a ->]. now exists (String c a).
Qed.

Lemma lacks_app (c : ascii) (a b : string) :
  lacks c (a ++ b) = lacks c a && lacks c b.
Proof.
  induction a as [|d a IH]; [reflexivity|].
  cbn [append lacks]. now rewrite IH, andb_assoc.
Qed.

Lemma replace_char_lacks (x y : ascii) (s : string) :
  lacks x s = true -> replace_char x y s = s.
Proof.
  induction s as [|c s IH]; [reflexivity|].
  cbn [lacks replace_char]. intros H. apply andb_true_iff in H as [Hc Hs].
  apply negb_true_iff in Hc. now rewrite Hc, IH.
Qed.

(** A path that begins with a rule ending in [/] holds a [/]. *)
Lemma directory_rule_needs_slash (p s : string) :
  endswith "/" p = true -> startswith p s = true -> lacks "/" s = false.
Proof.
  intros He Hs. apply endswith_split in He as [a ->].
  apply prefix_split in Hs as [t ->].
  rewrite !lacks_app. cbn. now rewrite andb_false_r.
Qed.

Lemma zip_rules_loop_reaches (before after : list string) (p mpath file : string) :
  (forall q, In q before -> re_match (strip q) file <> None) ->
  (endswith "/" (strip p) && startswith (strip p) mpath) = true ->
  zip_rules_loop re_match (before ++ p :: after) mpath file = Ok true.
Proof.
  intros Hb Hp. induction before as [|q qs IH].
  - cbn. now rewrite Hp.
  - cbn [app zip_rules_loop].
    destruct (endswith "/" (strip q) && startswith (strip q) mpath); [reflexivity|].
    destruct (re_match (strip q) file) as [[|]|] eqn:E.
    + reflexivity.
    + apply IH. intros x Hx. apply Hb. now right.
    + elim (Hb q (or_introl eq_refl) E).
Qed.

Lemma filter_all (A : Type) (f : A -> bool) (l : list A) :
  (forall x, In x l -> f x = true) -> filter f l = l.
Proof.
  induction l as [|x xs IH]; intros H; [reflexivity|].
  cbn. rewrite (H x (or_introl eq_refl)). f_equal.
  apply IH. intros y Hy. apply H. now right.
Qed.

End RuleFacts.

(** X4.  When the pattern of a rule is empty - the setting is empty or
    ends with a comma - and no rule raises, the whitelist lets everything
    through: the in-place whitelist removes nothing and the archive
    filter refuses only the paths that contain [.git].  (The empty
    pattern matches every name.) *)
Theorem empty_rule_disables_whitelist :
  RELEASE_WHITELIST "" = [""]
  /\ (forall setting, In "" (RELEASE_WHITELIST (setting ++ ",")))
  /\ (forall (re_match : string -> string -> option bool) (rules : list string),
         (forall s, re_match "" s = Some true) ->
         In "" rules ->
         (forall items,
             (forall t p, In t items -> In p rules ->
                          re_match p (entry_name t) <> None) ->
             apply_whitelist re_match rules items = (items, Ok tt))
         /\
         (forall sep f,
             (forall p, In p rules -> re_match (PyStr.strip p) (w_file f) <> None) ->
             PyStr.contains ".git" (match_path sep f) = false ->
             zip_filter re_match rules sep f = Ok true)).
Proof.
  split; [reflexivity|]. split.
  - intros setting. unfold RELEASE_WHITELIST.
    apply in_map_iff. exists "". split; [reflexivity|].
    apply split_from_last_empty.
  - intros re_match rules Hempty Hin. split.
    + intros items Hvalid. rewrite (apply_whitelist_no_raise _ _ _ Hvalid).
      f_equal. apply filter_all. intros t _.
      apply orb_true_iff. right. apply existsb_exists. exists "".
      split; [exact Hin|]. unfold tree_rule_matches. now rewrite Hempty.
    + intros sep f Hvalid Hgit. unfold zip_filter. rewrite Hgit.
      rewrite (zip_rules_loop_no_raise _ _ _ _ Hvalid). f_equal.
      apply existsb_exists. exists "". split; [exact Hin|].
      unfold zip_rule_matches. cbn [PyStr.strip PyStr.lstrip PyStr.rstrip].
      now rewrite Hempty.
Qed.

Lemma empty_rule_disables_whitelist_witness :
  apply_whitelist Re.re_match ["Plugin/"; ""] [File "secret.key"; Dir "obj" []]
  = ([File "secret.key"; Dir "obj" []], Ok tt).
Proof.
  apply (proj1 (proj2 (proj2 empty_rule_disables_whitelist) Re.re_match
                  ["Plugin/"; ""] (fun s => eq_refl)
                  (or_intror (or_introl eq_refl)))).
  intros t p Ht Hp.
  repeat (destruct Ht as [<-|Ht]; [repeat (destruct Hp as [<-|Hp];
            [vm_compute; discriminate|]); destruct Hp|]).
  destruct Ht.
Defined.

(** X5.  A rule made of a directory name and [/] keeps every file below
    that top-level directory in the local archive, with the separator of
    either platform, provided the path does not contain [.git] and no
    rule before it raises. *)
Theorem directory_rule_keeps_subtree :
  forall (re_match : string -> string -> option bool)
         (before after : list string) (rule dir : string) (sep : ascii)
         (dirs : list string) (file : string) (readable : bool),
    sep = "/"%char \/ sep = "\"%char ->
    PyStr.strip rule = dir ++ "/" ->
    lacks "\"%char dir = true ->
    (forall q, In q before -> re_match (PyStr.strip q) file <> None) ->
    PyStr.contains ".git" (match_path sep (mk_walked (dir :: dirs) file readable))
    = false ->
    zip_filter re_match (before ++ rule :: after) sep
               (mk_walked (dir :: dirs) file readable) = Ok true.
Proof.
  intros re_match before after rule dir sep dirs file readable Hsep Hrule Hdir Hb Hgit.
  unfold zip_filter. rewrite Hgit. cbn [w_file].
  apply zip_rules_loop_reaches; [exact Hb|].
  rewrite Hrule, endswith_app. cbn [andb].
  unfold match_path, rel_path. cbn [w_dirs w_file join_path].
  rewrite replace_char_app, (replace_char_lacks _ _ _ Hdir).
  cbn [PyStr.replace_char].
  assert (E : (if Ascii.eqb sep "\"%char then "/"%char else sep) = "/"%char)
    by (destruct Hsep as [-> | ->]; reflexivity).
  rewrite E. unfold PyStr.startswith.
  apply prefix_iff. eexists. rewrite app_assoc_str. reflexivity.
Qed.

Lemma directory_rule_keeps_subtree_witness :
  zip_filter Re.re_match (["manifest.xml"] ++ "Plugin/" :: [".*\.md$"]) "\"%char
             (mk_walked ["Plugin"; "bin"] "a.dll" true) = Ok true.
Proof.
  apply (directory_rule_keeps_subtree Re.re_match ["manifest.xml"] [".*\.md$"]
           "Plugin/" "Plugin" "\"%char ["bin"] "a.dll" true).
  - now right.
  - reflexivity.
  - reflexivity.
  - intros q [<-|[]]. vm_compute. discriminate.
  - vm_compute. reflexivity.
Defined.

(** X6.  The two whitelist applications agree on the files at the top of
    the tree: a top-level file the local archive takes is kept by the
    in-place whitelist too (rules without surrounding white space, as the
    settings give them; a name without separators). *)
Theorem archived_top_level_file_is_kept :
  forall (re_match : string -> string -> option bool) (rules : list string)
         (sep : ascii) (name : string) (readable : bool),
    (forall p, In p rules -> PyStr.strip p = p) ->
    lacks "/"%char name = true ->
    lacks "\"%char name = true ->
    zip_filter re_match rules sep (mk_walked [] name readable) = Ok true ->
    tree_rules_loop re_match rules name = Ok true.
Proof.
  intros re_match rules sep name readable Hstrip Hslash Hback H.
  unfold zip_filter, match_path, rel_path in H. cbn [w_dirs w_file join_path] in H.
  rewrite (replace_char_lacks _ _ _ Hback) in H.
  destruct (PyStr.contains ".git" name); [discriminate|].
  induction rules as [|p ps IH]; [discriminate|].
  cbn [zip_rules_loop tree_rules_loop] in *.
  rewrite (Hstrip p (or_introl eq_refl)) in H.
  assert (Hps : forall q, In q ps -> PyStr.strip q = q)
    by (intros q Hq; apply Hstrip; now right).
  destruct (PyStr.endswith "/" p && (name =? PyStr.drop_last p)); [reflexivity|].
  destruct (PyStr.endswith "/" p && PyStr.startswith p name) eqn:Ed.
  - apply andb_true_iff in Ed as [He Hs].
    now rewrite (directory_rule_needs_slash p name He Hs) in Hslash.
  - destruct (re_match p name) as [[|]|]; [reflexivity | now apply IH | discriminate].
Qed.

Lemma archived_top_level_file_is_kept_witness :
  tree_rules_loop Re.re_match ["Plugin/"; ".*\.md$"] "notes.md" = Ok true.
Proof.
  apply (archived_top_level_file_is_kept Re.re_match ["Plugin/"; ".*\.md$"]
           "/"%char "notes.md" true).
  - intros p [<-|[<-|[]]]; reflexivity.
  - reflexivity.
  - reflexivity.
  - vm_compute. reflexivity.
Defined.

(** X7.  The in-place whitelist is idempotent: run again on the tree it
    left, it removes nothing more. *)
Theorem apply_whitelist_idempotent :
  forall (re_match : string -> string -> option bool) (rules : list string)
         (items kept : list tree),
    apply_whitelist re_match rules items = (kept, Ok tt) ->
    apply_whitelist re_match rules kept = (kept, Ok tt).
Proof.
  intros re_match rules items. induction items as [|x xs IH]; intros kept H.
  - cbn in H. now injection H as <-.
  - cbn [apply_whitelist] in H.
    destruct (is_protected (entry_name x)) eqn:Hp.
    + destruct (apply_whitelist re_match rules xs) as [k r] eqn:E.
      injection H as <- ->. cbn [apply_whitelist].
      now rewrite Hp, (IH k eq_refl).
    + destruct (tree_rules_loop re_match rules (entry_name x)) as [[|]|e] eqn:Hl.
      * destruct (apply_whitelist re_match rules xs) as [k r] eqn:E.
        injection H as <- ->. cbn [apply_whitelist].
        now rewrite Hp, Hl, (IH k eq_refl).
      * now apply IH.
      * discriminate.
Qed.

Lemma apply_whitelist_idempotent_witness :
  apply_whitelist Re.re_match ["Plugin/"; ".*\.md$"]
    [Dir "Plugin" [File "a.dll"]; File "notes.md"; Dir ".git" []]
  = ([Dir "Plugin" [File "a.dll"]; File "notes.md"; Dir ".git" []], Ok tt).
Proof.
  apply (apply_whitelist_idempotent Re.re_match ["Plugin/"; ".*\.md$"]
           [Dir "Plugin" [File "a.dll"]; Dir "obj" []; File "notes.md";
            File "secret.key"; Dir ".git" []]).
  vm_compute. reflexivity.
Defined.

(* ------------------------------------------------------------------ *)
(** ** The changelog entry                                             *)
(* ------------------------------------------------------------------ *)

Lemma commits_of_nonempty (log_stdout : string) : commits_of log_stdout <> "".
Proof. unfold commits_of. destruct (PyStr.strip log_stdout); cbn; discriminate. Qed.

(** X8.  The body of a changelog entry is never empty: when [git log]
    prints nothing but white space the entry reads [- General updates.],
    otherwise it is the output without the white space around it. *)
Theorem commits_never_empty :
  forall (log_stdout : string),
    commits_of log_stdout <> ""
    /\ (all_space log_stdout = true -> commits_of log_stdout = "- General updates.")
    /\ (PyStr.strip log_stdout <> "" -> commits_of log_stdout = PyStr.strip log_stdout).
Proof.
  intros s. split; [apply commits_of_nonempty|]. unfold commits_of. split.
  - intros H. now rewrite (strip_all_space s H).
  - intros H. now rewrite (truthy_nonempty _ H).
Qed.

Lemma commits_never_empty_witness :
  commits_of ("  " ++ nl) = "- General updates.".
Proof.
  apply (proj1 (proj2 (commits_never_empty ("  " ++ nl)))).
  reflexivity.
Defined.

(** X9.  After [generate_changelog] the changelog holds a section for
    the version whenever it did not exist before or holds the title block
    ["# Changelog\n\n"]. *)
Theorem changelog_has_section_afterwards :
  forall (version date commits : string) (doc : option string),
    doc = None \/ PyStr.contains changelog_title (changelog_content doc) = true ->
    PyStr.contains (section_header version)
      (changelog_content (changelog_after version date commits doc)) = true.
Proof.
  intros version date commits doc H.
  assert (Ht : PyStr.contains changelog_title (changelog_content doc) = true)
    by (destruct H as [-> | H]; [reflexivity | exact H]).
  destruct (changelog_after_settled version date commits doc) as [E | (_ & E & _)].
  - exact E.
  - rewrite Ht in E. discriminate.
Qed.

Lemma changelog_has_section_afterwards_witness :
  PyStr.contains (section_header "1.1")
    (changelog_content (changelog_after "1.1" "2026-01-01" "- fix" None)) = true.
Proof.
  apply (changelog_has_section_afterwards "1.1" "2026-01-01" "- fix" None).
  now left.
Defined.

(* ------------------------------------------------------------------ *)
(** ** What the runs of the process do and do not                      *)
(* ------------------------------------------------------------------ *)

Section OnlyFacts.

Variable env : environment.
Variable ok : event -> Prop.

Lemma only_ret {A : Type} (a : A) : only ok (ret a).
Proof. intros h. exists []. split; [cbn; now rewrite app_nil_r | constructor]. Qed.

Lemma only_ask {A : Type} (f : list event -> A) : only ok (ask f).
Proof. intros h. exists []. split; [cbn; now rewrite app_nil_r | constructor]. Qed.

Lemma only_sys_exit {A : Type} (code : nat) : only ok (@sys_exit A code).
Proof. intros h. exists []. split; [cbn; now rewrite app_nil_r | constructor]. Qed.

Lemma only_raise {A : Type} (e : exn) : only ok (@raise A e).
Proof. intros h. exists []. split; [cbn; now rewrite app_nil_r | constructor]. Qed.

Lemma only_emit (e : event) : ok e -> only ok (emit e).
Proof. intros H h. exists [e]. split; [reflexivity | now repeat constructor]. Qed.

Lemma only_bind {A B : Type} (m : proc A) (k : A -> proc B) :
  only ok m -> (forall a, only ok (k a)) -> only ok (bind m k).
Proof.
  intros Hm Hk h. destruct (Hm h) as (e1 & E1 & F1).
  unfold bind. destruct (m h) as [h1 [a|code|e]]; cbn [fst snd] in *; subst h1.
  - destruct (Hk a (h ++ e1)%list) as (e2 & E2 & F2).
    exists (e1 ++ e2)%list. split.
    + now rewrite E2, app_assoc.
    + apply Forall_app. now split.
  - now exists e1.
  - now exists e1.
Qed.

Lemma only_subprocess_run (cmd : string) :
  (forall rc, ok (Ran cmd rc)) -> only ok (subprocess_run env cmd).
Proof.
  intros H h. eexists. split; [reflexivity|]. repeat constructor. apply H.
Qed.

Lemma only_check_run (cmd : string) (exit_on_fail : bool) :
  (forall rc, ok (Ran cmd rc)) -> (forall level msg, ok (Logged level msg)) ->
  only ok (check_run env cmd exit_on_fail).
Proof.
  intros Hr Hl. unfold check_run, log_and_print.
  apply only_bind; [now apply only_emit | intros _].
  apply only_bind; [now apply only_subprocess_run | intros res].
  destruct (negb (returncode res =? 0)%nat).
  - apply only_bind; [now apply only_emit | intros _].
    destruct exit_on_fail; [apply only_sys_exit | apply only_ret].
  - apply only_ret.
Qed.

End OnlyFacts.

Section EndsFacts.

Variable env : environment.

Lemma ends_weaken {A : Type} (m : proc A) (V W : A -> Prop) :
  ends m V -> (forall a, V a -> W a) -> ends m W.
Proof.
  intros H HVW h. specialize (H h). destruct (snd (m h)); auto.
Qed.










End EndsFacts.

(** X10.  [check_run] runs its command once.  When the command returns 0
    it gives back a string; when it does not, an error is logged and the
    process exits with status 1, or - if the caller asked not to exit -
    [None] is returned and the run goes on. *)
Theorem check_run_outcome :
  forall (env : environment) (cmd : string) (exit_on_fail : bool) (h : list event),
    exists rc evs,
      fst (check_run env cmd exit_on_fail h) = (h ++ evs)%list
      /\ commands evs = [(cmd, rc)]
      /\ (rc = 0 -> exists out, snd (check_run env cmd exit_on_fail h) = Normal (Some out))
      /\ (rc <> 0 ->
          snd (check_run env cmd exit_on_fail h)
          = (if exit_on_fail then Exit 1 else Normal None)
          /\ exists msg, In (Logged "ERROR" msg) evs).
Proof.
  intros env cmd exit_on_fail h.
  remember (sh env (h ++ [Logged "DEBUG" ("EXECUTING: " ++ cmd)])%list cmd) as res
    eqn:Eres.
  exists (returncode res).
  unfold check_run, bind, log_and_print, emit, subprocess_run, ret, sys_exit.
  cbv beta iota zeta. rewrite <- Eres.
  destruct (returncode res) as [|n]; cbn [Nat.eqb negb fst snd].
  - eexists. split; [rewrite <- app_assoc; reflexivity|].
    split; [reflexivity|]. split; [intros _; eexists; reflexivity | now intros H].
  - destruct exit_on_fail; cbn [fst snd].
    + eexists. split; [rewrite <- !app_assoc; reflexivity|].
      split; [reflexivity|]. split; [discriminate|]. intros _.
      split; [reflexivity|]. eexists. cbn [app In]. right. right. left. reflexivity.
    + eexists. split; [rewrite <- !app_assoc; reflexivity|].
      split; [reflexivity|]. split; [discriminate|]. intros _.
      split; [reflexivity|]. eexists. cbn [app In]. right. right. left. reflexivity.
Qed.

Lemma check_run_outcome_witness :
  exists rc evs,
    fst (check_run quiet_env "git add -A" false []) = ([] ++ evs)%list
    /\ commands evs = [("git add -A", rc)]
    /\ (rc = 0 -> exists out,
          snd (check_run quiet_env "git add -A" false []) = Normal (Some out))
    /\ (rc <> 0 ->
        snd (check_run quiet_env "git add -A" false [])
        = (if false then Exit 1 else Normal None)
        /\ exists msg, In (Logged "ERROR" msg) evs).
Proof.
  exact (check_run_outcome quiet_env "git add -A" false []).
Defined.

(** X11.  Once the settings are loaded and the flags parsed, a run
    started in a directory that is not the project folder does nothing:
    no command, no prompt, no file written, and the exit status is 1 -
    whatever the flags. *)
Theorem wrong_directory_does_nothing :
  forall (re_match : string -> string -> option bool)
         (re_sub : string -> string -> string -> string)
         (format_name : string -> name_fields -> option string)
         (VS_CODE_PATH log_path : string)
         (env : environment) (cfg : settings),
    cwd_basename env <> LocalFolderName cfg ->
    (forall args h,
        main re_match re_sub format_name VS_CODE_PATH log_path env cfg args h
        = (h, Exit 1))
    /\ (forall version auto is_deploy h,
           handle_master_sync re_match re_sub format_name env cfg version auto
                              is_deploy h = (h, Exit 1)).
Proof.
  intros re_match re_sub format_name VS_CODE_PATH log_path env cfg H.
  apply String.eqb_neq in H. split; intros.
  - unfold main, bind, verify_env. now rewrite H.
  - unfold handle_master_sync, flatten, bind, verify_env. now rewrite H.
Qed.

Lemma wrong_directory_does_nothing_witness :
  main Re.re_match (fun _ _ s => s) (fun t _ => Some t)
       "code" "logs/20260101.log" quiet_env
       (set_DefaultVersion
          (mk_settings "elsewhere" "proj" "1.0.0" "origin" "origin" "dev" "master"
                       "manifest.xml" "README.md" "CHANGELOG.md"
                       default_ReleaseWhiteList "{date}.zip") "1.0.0")
       (mk_arguments true false false false true false) []
  = ([], Exit 1).
Proof.
  apply (proj1 (wrong_directory_does_nothing Re.re_match (fun _ _ s => s) (fun t _ => Some t)
                  "code" "logs/20260101.log" quiet_env
                  (set_DefaultVersion
                     (mk_settings "elsewhere" "proj" "1.0.0" "origin" "origin" "dev"
                        "master" "manifest.xml" "README.md" "CHANGELOG.md"
                        default_ReleaseWhiteList "{date}.zip") "1.0.0")
                  ltac:(cbn; discriminate))).
Defined.

Section BackupModeFacts.

Variable re_match : string -> string -> option bool.
Variable re_sub : string -> string -> string -> string.
Variable format_name : string -> name_fields -> option string.
Variable VS_CODE_PATH : string.
Variable log_path : string.
Variable env : environment.
Variable cfg : settings.
Variable open : bool.

Lemma only_verify_env_backup (is_release_op : bool) :
  only (backup_event cfg open VS_CODE_PATH log_path) (verify_env env cfg is_release_op).
Proof.
  unfold verify_env, get_current_branch.
  destruct (negb (cwd_basename env =? LocalFolderName cfg)); [apply only_sys_exit|].
  apply only_bind.
  - apply only_bind; [|intros res; apply only_ret].
    apply only_subprocess_run. intros rc. now left.
  - intros curr. destruct (is_release_op && (curr =? RELEASE_BRANCH cfg)).
    + apply only_bind; [|intros _; apply only_ret].
      apply only_check_run; [intros rc; now right | now intros].
    + apply only_ret.
Qed.

Lemma only_get_project_version_run (auto_yes : bool) :
  only (backup_event cfg open VS_CODE_PATH log_path) (get_project_version_run env cfg auto_yes).
Proof.
  unfold get_project_version_run.
  apply only_bind; [apply only_ask | intros m].
  apply only_bind.
  - destruct (negb auto_yes); [|apply only_ret].
    apply only_bind; [now apply only_emit | intros _].
    apply only_bind; [now apply only_emit | intros _]. apply only_ask.
  - intros line. apply only_bind; [apply only_ask | intros stored].
    destruct (get_project_version auto_yes m cfg line stored) as [ver stored'].
    apply only_bind; [now apply only_emit | intros _]. apply only_ret.
Qed.

Lemma only_create_backup_run (version type_label destination : string) :
  only (backup_event cfg open VS_CODE_PATH log_path)
       (create_backup_run re_match format_name env cfg version type_label destination).
Proof.
  unfold create_backup_run, get_current_branch, log_and_print.
  apply only_bind; [apply only_ask | intros date].
  apply only_bind; [apply only_ask | intros time].
  apply only_bind.
  - apply only_bind; [|intros res; apply only_ret].
    apply only_subprocess_run. intros rc. now left.
  - intros branch.
    destruct (format_name (BACKUP_NAME_FORMAT cfg)
                (mk_name_fields date time type_label (PROJECT_NAME cfg) "LOCAL"
                                version branch)) as [name|]; [|apply only_raise].
    apply only_bind; [apply only_ask | intros files].
    apply only_bind; [apply only_ask | intros before].
    apply only_bind; [apply only_ask | intros creatable].
    apply only_bind; [now apply only_emit | intros _]. now apply only_emit.
Qed.

Lemma only_open_log :
  only (backup_event cfg open VS_CODE_PATH log_path)
       (if open then open_log VS_CODE_PATH log_path env else ret tt).
Proof.
  unfold open_log. destruct open; [|apply only_ret].
  apply only_bind; [apply only_ask | intros installed].
  destruct installed; [apply only_emit; now split|].
  destruct (has_startfile env); [now apply only_emit | apply only_raise].
Qed.

Lemma only_main_backup (args : arguments) :
  arg_full_backup args || arg_zip args = true ->
  arg_open args = open ->
  only (backup_event cfg open VS_CODE_PATH log_path)
       (main re_match re_sub format_name VS_CODE_PATH log_path env cfg args).
Proof.
  intros Hmode Hopen. unfold main.
  apply only_bind; [apply only_verify_env_backup | intros _].
  apply only_bind; [apply only_get_project_version_run | intros VER].
  apply only_bind.
  - destruct (arg_full_backup args); [apply only_create_backup_run|].
    cbn in Hmode. rewrite Hmode. apply only_create_backup_run.
  - intros _. rewrite Hopen. apply only_open_log.
Qed.

End BackupModeFacts.

(** X12.  With [--full-backup] or [--zip] the program only reads the
    project: whatever other flags are given and whatever the commands
    return, the only commands it runs through the shell are [git
    rev-parse --abbrev-ref HEAD] and the checkout of the development
    branch; the only other program it starts is the editor on the log,
    and, like [os.startfile], only under [-o]; it never applies the
    whitelist to the working tree and never writes the changelog or the
    readme. *)
Theorem backup_modes_only_read :
  forall (re_match : string -> string -> option bool)
         (re_sub : string -> string -> string -> string)
         (format_name : string -> name_fields -> option string)
         (VS_CODE_PATH log_path : string)
         (env : environment) (cfg : settings) (args : arguments) (h : list event),
    arg_full_backup args || arg_zip args = true ->
    exists evs,
      fst (main re_match re_sub format_name VS_CODE_PATH log_path env cfg args h)
      = (h ++ evs)%list
      /\ (forall cmd rc, In (Ran cmd rc) evs ->
            cmd = "git rev-parse --abbrev-ref HEAD"
            \/ cmd = "git checkout " ++ DEV_BRANCH cfg)
      /\ (forall argv, In (Started argv) evs ->
            arg_open args = true /\ argv = [VS_CODE_PATH; log_path])
      /\ (In OpenedLog evs -> arg_open args = true)
      /\ (forall kept, ~ In (TreeLeft kept) evs)
      /\ (forall path content, ~ In (WroteFile path content) evs).
Proof.
  intros re_match re_sub format_name VS_CODE_PATH log_path env cfg args h Hmode.
  destruct (only_main_backup re_match re_sub format_name VS_CODE_PATH log_path
              env cfg (arg_open args) args Hmode eq_refl h)
    as (evs & E & F).
  exists evs. split; [exact E|].
  rewrite Forall_forall in F. repeat apply conj.
  - intros cmd rc Hin. exact (F _ Hin).
  - intros argv Hin. exact (F _ Hin).
  - intros Hin. exact (F _ Hin).
  - intros kept Hin. exact (F _ Hin).
  - intros path content Hin. exact (F _ Hin).
Qed.

Lemma backup_modes_only_read_witness :
  exists evs,
    fst (main Re.re_match (fun _ _ s => s) (fun t _ => Some t)
              "code" "logs/20260101.log" editor_env sample_cfg
              (mk_arguments true false false true true true) [])
    = ([] ++ evs)%list
    /\ (forall cmd rc, In (Ran cmd rc) evs ->
          cmd = "git rev-parse --abbrev-ref HEAD"
          \/ cmd = "git checkout " ++ DEV_BRANCH sample_cfg)
    /\ (forall argv, In (Started argv) evs ->
          arg_open (mk_arguments true false false true true true) = true
          /\ argv = ["code"; "logs/20260101.log"])
    /\ (In OpenedLog evs ->
        arg_open (mk_arguments true false false true true true) = true)
    /\ (forall kept, ~ In (TreeLeft kept) evs)
    /\ (forall path content, ~ In (WroteFile path content) evs).
Proof.
  apply (backup_modes_only_read Re.re_match (fun _ _ s => s) (fun t _ => Some t)
           "code" "logs/20260101.log" editor_env sample_cfg
           (mk_arguments true false false true true true) []).
  reflexivity.
Defined.

(** The run of [--zip -y -o] where the editor is installed: the branch is
    asked for twice, the archive is written and the editor is started on
    the log. *)
Example zip_open_events :
  main Re.re_match (fun _ _ s => s) (fun t _ => Some t)
       "code" "logs/20260101.log" editor_env sample_cfg
       (mk_arguments false false false true true true) []
  = ([Ran "git rev-parse --abbrev-ref HEAD" 0;
      WroteSettings (set_DefaultVersion sample_cfg "2.3.1");
      Ran "git rev-parse --abbrev-ref HEAD" 0;
      Archived "local" "{date}_{time}_{type}_{project}_v{version}_{remote}_{branch}.zip"
               (Some ["Plugin/a.dll"; "manifest.xml"]);
      Logged "INFO" "Archive SUCCESS";
      Started ["code"; "logs/20260101.log"]],
     Normal tt).
Proof. vm_compute. reflexivity. Qed.

(** The same run where neither the editor nor [os.startfile] is there:
    the archive is written, then the run ends with an exception. *)
Example zip_open_without_startfile :
  snd (main Re.re_match (fun _ _ s => s) (fun t _ => Some t)
            "code" "logs/20260101.log" quiet_env sample_cfg
            (mk_arguments false false false true true true) [])
  = Uncaught (AttributeError "startfile")
  /\ exit_status Re.re_match (fun _ _ s => s) (fun t _ => Some t)
                 "code" "logs/20260101.log" quiet_env sample_cfg
                 (mk_arguments false false false true true true) = 1.
Proof. vm_compute. split; reflexivity. Qed.


Section BackupFirst.

Variable re_match : string -> string -> option bool.
Variable re_sub : string -> string -> string -> string.
Variable format_name : string -> name_fields -> option string.
Variable env : environment.
Variable cfg : settings.









End BackupFirst.




Section ExpectedEnds.

Variable re_match : string -> string -> option bool.
Variable re_sub : string -> string -> string -> string.
Variable format_name : string -> name_fields -> option string.
Variable VS_CODE_PATH : string.
Variable log_path : string.
Variable env : environment.
Variable cfg : settings.




















End ExpectedEnds.


Section BestEffort.

Variable re_match : string -> string -> option bool.
Variable re_sub : string -> string -> string -> string.
Variable format_name : string -> name_fields -> option string.
Variable env : environment.
Variable cfg : settings.

(** Every command succeeds, but perhaps the two deletions. *)
Hypothesis others_succeed :
  forall h cmd,
    PyStr.startswith "git branch -D" cmd = false ->
    PyStr.startswith "gh release delete" cmd = false ->
    returncode (sh env h cmd) = 0.
Hypothesis cwd_matches : cwd_basename env = LocalFolderName cfg.
Hypothesis rules_valid :
  forall h, snd (apply_whitelist re_match
                   (RELEASE_WHITELIST (ReleaseWhiteList cfg))
                   (listdir env h)) = Ok tt.
Hypothesis name_formats :
  forall fields, format_name (BackupFormat cfg) fields <> None.

Lemma completes_check_run_other (cmd : string) (exit_on_fail : bool) :
  PyStr.startswith "git branch -D" cmd = false ->
  PyStr.startswith "gh release delete" cmd = false ->
  completes (check_run env cmd exit_on_fail).
Proof.
  intros H1 H2 h.
  destruct (check_run_zero env cmd exit_on_fail h (others_succeed _ _ H1 H2))
    as [out E].
  eexists; eexists; eexists. split; [exact E|].
  rewrite !commands_app. cbn. now rewrite <- app_assoc.
Qed.

Ltac best_effort_steps :=
  repeat first
    [ apply completes_ret
    | apply completes_emit
    | apply completes_ask
    | apply completes_subprocess_run
    | apply completes_check_run_other; reflexivity
    | apply completes_bind; [|intros ?]
    | match goal with
      | |- completes (if ?b then _ else _) => destruct b
      | |- completes (match ?x with _ => _ end) => destruct x
      end ].

Lemma completes_flatten_best_effort (version : string) (is_deploy : bool) :
  completes (flatten re_match re_sub format_name env cfg version is_deploy).
Proof.
  unfold flatten.
  apply completes_bind.
  { unfold verify_env. rewrite cwd_matches, String.eqb_refl. cbn [negb].
    unfold get_current_branch. best_effort_steps. }
  intros _. apply completes_bind; [unfold generate_changelog; best_effort_steps|].
  intros notes. apply completes_bind; [apply completes_ask | intros readme].
  apply completes_bind; [destruct readme; best_effort_steps | intros _].
  apply completes_bind; [best_effort_steps | intros _].
  apply completes_bind; [apply completes_subprocess_run | intros status].
  apply completes_bind; [best_effort_steps | intros _].
  apply completes_bind;
    [exact (completes_create_backup_run re_match format_name env cfg name_formats
              version _ _)|].
  intros _. apply completes_bind; [apply completes_subprocess_run | intros _].
  apply completes_bind; [best_effort_steps | intros _].
  apply completes_bind.
  { intros h. unfold apply_whitelist_run, bind, ask.
    pose proof (rules_valid h) as V.
    destruct (apply_whitelist re_match (RELEASE_WHITELIST (ReleaseWhiteList cfg))
                              (listdir env h)) as [kept r].
    cbn in V. subst r. apply completes_emit. }
  intros _. best_effort_steps.
Qed.

Lemma completes_hosted_release (version notes : string) :
  completes
    (url <- check_run env ("git remote get-url " ++ ReleaseRemote cfg) true ;;
     match url with
     | None => raise TypeError
     | Some u =>
         let repo := PyStr.replace ".git" EmptyString
                       (re_sub ".*github\.com[:/]" EmptyString u) in
         subprocess_run env ("gh release delete v" ++ version ++ " --repo " ++ repo
                               ++ " -y") ;;
         check_run env ("gh release create v" ++ version ++ " --repo " ++ repo
                          ++ " --title " ++ dq ++ "v" ++ version ++ dq
                          ++ " --notes " ++ dq ++ notes ++ dq) true ;;
         ret tt
     end).
Proof.
  intros h.
  destruct (check_run_zero env ("git remote get-url " ++ ReleaseRemote cfg) true h
              (others_succeed _ ("git remote get-url " ++ ReleaseRemote cfg)
                 eq_refl eq_refl)) as [u E].
  match goal with
  | |- context [bind _ ?k h] =>
      assert (Hk : completes (k (Some u))) by (cbn beta iota; best_effort_steps)
  end.
  unfold bind at 1. rewrite E.
  match type of Hk with
  | completes ?m =>
      destruct (Hk ((h ++ [Logged "DEBUG"
                              ("EXECUTING: " ++ "git remote get-url "
                                 ++ ReleaseRemote cfg)])
                      ++ [Ran ("git remote get-url " ++ ReleaseRemote cfg) 0])%list)
        as (h' & a & cs & E' & C')
  end.
  exists h', a. eexists. split; [exact E'|].
  rewrite C', !commands_app. cbn. rewrite app_nil_r, <- app_assoc. reflexivity.
Qed.

Lemma completes_finish_best_effort (version notes : string) (is_deploy : bool) :
  completes (finish re_sub env cfg version notes is_deploy).
Proof.
  unfold finish.
  apply completes_bind; [best_effort_steps | intros _].
  apply completes_bind; [best_effort_steps | intros _].
  apply completes_bind.
  - destruct is_deploy; [apply completes_hosted_release | apply completes_ret].
  - intros _. best_effort_steps.
Qed.

Lemma completes_release_best_effort (version : string) (auto is_deploy : bool) :
  completes (handle_master_sync re_match re_sub format_name env cfg version auto
                                is_deploy).
Proof.
  unfold handle_master_sync.
  apply completes_bind; [apply completes_flatten_best_effort | intros notes].
  apply completes_bind; [|intros _; apply completes_finish_best_effort].
  destruct is_deploy; unfold push_deploy, push_update; best_effort_steps.
Qed.

End BestEffort.

(** X15.  The deletion of the temporary branch and the deletion of the
    hosted release are attempts only: when every other command succeeds
    and the archive made on the way gets its name, a release - forced or
    incremental - runs to its end although they fail. *)
Theorem release_survives_failed_deletions :
  forall (re_match : string -> string -> option bool)
         (re_sub : string -> string -> string -> string)
         (format_name : string -> name_fields -> option string)
         (env : environment) (cfg : settings)
         (version : string) (auto is_deploy : bool),
    (forall h cmd,
        PyStr.startswith "git branch -D" cmd = false ->
        PyStr.startswith "gh release delete" cmd = false ->
        returncode (sh env h cmd) = 0) ->
    cwd_basename env = LocalFolderName cfg ->
    (forall h, snd (apply_whitelist re_match
                      (RELEASE_WHITELIST (ReleaseWhiteList cfg))
                      (listdir env h)) = Ok tt) ->
    (forall fields, format_name (BackupFormat cfg) fields <> None) ->
    exists h,
      handle_master_sync re_match re_sub format_name env cfg version auto is_deploy []
      = (h, Normal tt).
Proof.
  intros re_match re_sub format_name env cfg version auto is_deploy Hs Hc Hr Hn.
  destruct (completes_release_best_effort re_match re_sub format_name env cfg
              Hs Hc Hr Hn version auto is_deploy []) as (h & [] & cs & E & _).
  now exists h.
Qed.

Lemma release_survives_failed_deletions_witness :
  exists h,
    handle_master_sync Re.re_match (fun _ _ s => s) (fun t _ => Some t)
                       flaky_env sample_cfg "2.3.1" true true []
    = (h, Normal tt).
Proof.
  apply (release_survives_failed_deletions Re.re_match (fun _ _ s => s)
           (fun t _ => Some t) flaky_env sample_cfg "2.3.1" true true).
  - intros h cmd H1 H2. cbn. unfold PyStr.startswith in *. now rewrite H1, H2.
  - reflexivity.
  - intros h. vm_compute. reflexivity.
  - discriminate.
Defined.

(** The commands of a forced release in which both deletions fail. *)
Example flaky_deploy_commands :
  commands (fst (handle_master_sync Re.re_match (fun _ _ s => s) (fun t _ => Some t)
                                    flaky_env sample_cfg "2.3.1" true true []))
  = [("git rev-parse --abbrev-ref HEAD", 0);
     ("git describe --tags --abbrev=0", 0);
     ("git log -n 5 --pretty=format:" ++ dq ++ "- %s" ++ dq, 0);
     ("git add CHANGELOG.md README.md", 0);
     ("git status --porcelain", 0);
     ("git rev-parse --abbrev-ref HEAD", 0);
     ("git branch -D temp_release_work", 1);
     ("git checkout --orphan temp_release_work dev", 0);
     ("git add -A", 0);
     ("git commit -m " ++ dq ++ "Release v2.3.1" ++ dq ++ " --allow-empty", 0);
     ("git push origin temp_release_work:master --force", 0);
     ("git tag -a v2.3.1 -m 'v2.3.1'", 0);
     ("git push origin v2.3.1", 0);
     ("git remote get-url origin", 0);
     ("gh release delete v2.3.1 --repo SUCCESS -y", 1);
     ("gh release create v2.3.1 --repo SUCCESS --title " ++ dq ++ "v2.3.1" ++ dq
        ++ " --notes " ++ dq ++ "- General updates." ++ dq, 0);
     ("git checkout dev -f", 0);
     ("git checkout v2.3.1 -- manifest.xml CHANGELOG.md README.md", 0);
     ("git status --porcelain", 0);
     ("git branch -D temp_release_work", 1)].
Proof. vm_compute. reflexivity. Qed.

Section DevSyncFacts.

Variable env : environment.
Variable cfg : settings.

Lemma only_dev_sync_tail_no_diff (VER : string) (yes : bool) :
  (forall h, PyStr.strip (stdout (sh env h "git diff --cached --name-status")) = "") ->
  only (idle_sync_event cfg)
       (diff <- subprocess_run env "git diff --cached --name-status" ;;
        if PyStr.truthy (PyStr.strip (stdout diff)) then
          msg <- (if yes then ret "auto sync"
                  else emit (Asked "Dev commit msg") ;;
                       line <- ask (typed env) ;; ret (PyStr.strip line)) ;;
          if PyStr.truthy msg then
            check_run env ("git commit -m " ++ dq ++ "v" ++ VER ++ " | " ++ msg ++ dq)
                      true ;;
            check_run env ("git push " ++ DevRemote cfg ++ " " ++ DEV_BRANCH cfg) true ;;
            ret tt
          else ret tt
        else emit (Printed "Nothing to sync on dev branch.")).
Proof.
  intros Hdiff h. unfold bind at 1, subprocess_run. cbv zeta.
  rewrite Hdiff. cbn [PyStr.truthy]. unfold emit. cbn [fst snd].
  rewrite <- app_assoc. eexists. split; [reflexivity|].
  constructor; [cbn; tauto|]. constructor; [exact I | constructor].
Qed.

Lemma only_dev_sync_tail_no_message (VER : string) :
  (forall h, PyStr.strip (typed env h) = "") ->
  only (idle_sync_event cfg)
       (diff <- subprocess_run env "git diff --cached --name-status" ;;
        if PyStr.truthy (PyStr.strip (stdout diff)) then
          msg <- (if false then ret "auto sync"
                  else emit (Asked "Dev commit msg") ;;
                       line <- ask (typed env) ;; ret (PyStr.strip line)) ;;
          if PyStr.truthy msg then
            check_run env ("git commit -m " ++ dq ++ "v" ++ VER ++ " | " ++ msg ++ dq)
                      true ;;
            check_run env ("git push " ++ DevRemote cfg ++ " " ++ DEV_BRANCH cfg) true ;;
            ret tt
          else ret tt
        else emit (Printed "Nothing to sync on dev branch.")).
Proof.
  intros Htyped h. unfold bind at 1, subprocess_run. cbv zeta.
  destruct (PyStr.truthy (PyStr.strip (stdout (sh env h "git diff --cached --name-status")))).
  - unfold bind, emit, ask, ret. cbn [fst snd]. rewrite Htyped. cbn [PyStr.truthy].
    rewrite <- app_assoc. eexists. split; [reflexivity|].
    constructor; [cbn; tauto|]. constructor; [exact I | constructor].
  - unfold emit. cbn [fst snd]. rewrite <- app_assoc. eexists.
    split; [reflexivity|]. constructor; [cbn; tauto|]. constructor; [exact I | constructor].
Qed.

Lemma only_dev_sync_idle (VER : string) (yes : bool) :
  (forall h, PyStr.strip (stdout (sh env h "git diff --cached --name-status")) = "")
  \/ (yes = false /\ forall h, PyStr.strip (typed env h) = "") ->
  only (idle_sync_event cfg) (dev_sync env cfg VER yes).
Proof.
  intros H. unfold dev_sync, get_current_branch.
  apply only_bind.
  { apply only_bind; [|intros res; apply only_ret].
    apply only_subprocess_run. intros rc. cbn. tauto. }
  intros curr. apply only_bind.
  { destruct (negb (curr =? DEV_BRANCH cfg)); [|apply only_ret].
    apply only_bind; [|intros _; apply only_ret].
    apply only_check_run; [intros rc; cbn; tauto | now intros]. }
  intros _. apply only_bind.
  { apply only_check_run; [intros rc; cbn; tauto | now intros]. }
  intros _. destruct H as [Hdiff | [-> Htyped]].
  - now apply only_dev_sync_tail_no_diff.
  - now apply only_dev_sync_tail_no_message.
Qed.

End DevSyncFacts.

(** X16.  The plain synchronisation of the development branch commits
    and pushes nothing when there is nothing staged ([git diff --cached]
    prints nothing), and nothing either when the operator, asked for a
    commit message, types none: the only commands it runs then are the
    query of the branch, the checkout of the development branch, [git add
    .] and the diff. *)
Theorem dev_sync_idle :
  forall (env : environment) (cfg : settings) (VER : string) (yes : bool)
         (h : list event),
    (forall h', PyStr.strip (stdout (sh env h' "git diff --cached --name-status")) = "")
    \/ (yes = false /\ forall h', PyStr.strip (typed env h') = "") ->
    exists evs,
      fst (dev_sync env cfg VER yes h) = (h ++ evs)%list
      /\ forall cmd rc, In (Ran cmd rc) evs ->
           cmd = "git rev-parse --abbrev-ref HEAD"
           \/ cmd = "git checkout " ++ DEV_BRANCH cfg ++ " -f"
           \/ cmd = "git add ."
           \/ cmd = "git diff --cached --name-status".
Proof.
  intros env cfg VER yes h H.
  destruct (only_dev_sync_idle env cfg VER yes H h) as (evs & E & F).
  exists evs. split; [exact E|].
  rewrite Forall_forall in F. intros cmd rc Hin. exact (F _ Hin).
Qed.

Lemma dev_sync_idle_witness :
  exists evs,
    fst (dev_sync quiet_env sample_cfg "2.3.1" true []) = ([] ++ evs)%list
    /\ forall cmd rc, In (Ran cmd rc) evs ->
         cmd = "git rev-parse --abbrev-ref HEAD"
         \/ cmd = "git checkout " ++ DEV_BRANCH sample_cfg ++ " -f"
         \/ cmd = "git add ."
         \/ cmd = "git diff --cached --name-status".
Proof.
  apply (dev_sync_idle quiet_env sample_cfg "2.3.1" true []).
  left. intros h'. reflexivity.
Defined.

(* ------------------------------------------------------------------ *)
(** ** The settings file                                               *)
(* ------------------------------------------------------------------ *)

Section ConfigFacts.
Import Config.

Lemma lookup_store_same (k v : string) (c : options) :
  lookup k (store k v c) = Some v.
Proof.
  induction c as [|[k' v'] c IH]; cbn.
  - now rewrite String.eqb_refl.
  - destruct (k' =? k) eqn:E; cbn; rewrite E; [reflexivity | exact IH].
Qed.

Lemma lookup_store_other (k k' v : string) (c : options) :
  k' <> k -> lookup k' (store k v c) = lookup k' c.
Proof.
  intros H. induction c as [|[k0 v0] c IH]; cbn.
  - destruct (k =? k') eqn:E; [|reflexivity].
    apply String.eqb_eq in E. now elim H.
  - destruct (k0 =? k) eqn:E; cbn.
    + apply String.eqb_eq in E as ->.
      destruct (k =? k') eqn:E'; [|reflexivity].
      apply String.eqb_eq in E'. now elim H.
    + now rewrite IH.
Qed.

Lemma store_keeps_present (k k' v : string) (c : options) :
  lookup k' c <> None -> lookup k' (store k v c) <> None.
Proof.
  intros H. destruct (String.eqb_spec k' k) as [->|Hne].
  - now rewrite lookup_store_same.
  - now rewrite lookup_store_other.
Qed.

(** The loop over the defaults leaves the options of the file alone. *)
Lemma fill_defaults_keeps (defs : list (string * string)) (c : options)
      (updated : bool) (k v : string) :
  lookup k c = Some v ->
  lookup k (fst (fill_defaults defs c updated)) = Some v.
Proof.
  revert c updated; induction defs as [|[key value] defs IH]; intros c updated H;
    [exact H|].
  cbn [fill_defaults]. unfold has_option.
  destruct (lookup (lower key) c) as [w|] eqn:E; cbn [negb].
  - now apply IH.
  - apply IH. unfold set. rewrite lookup_store_other; [exact H|].
    intros ->. rewrite E in H. discriminate.
Qed.

Lemma fill_defaults_keeps_present (defs : list (string * string)) (c : options)
      (updated : bool) (k : string) :
  lookup k c <> None ->
  lookup k (fst (fill_defaults defs c updated)) <> None.
Proof.
  intros H. destruct (lookup k c) as [v|] eqn:E; [|now elim H].
  now rewrite (fill_defaults_keeps defs c updated k v E).
Qed.

(** After the loop every default has a value. *)
Lemma fill_defaults_complete (defs : list (string * string)) (c : options)
      (updated : bool) (key value : string) :
  In (key, value) defs ->
  lookup (lower key) (fst (fill_defaults defs c updated)) <> None.
Proof.
  revert c updated; induction defs as [|[k0 v0] defs IH]; intros c updated Hin;
    [destruct Hin|].
  cbn [fill_defaults]. destruct Hin as [E|Hin].
  - injection E as -> ->. unfold has_option.
    destruct (lookup (lower key) c) as [w|] eqn:E; cbn [negb].
    + apply fill_defaults_keeps_present. now rewrite E.
    + apply fill_defaults_keeps_present. unfold set.
      now rewrite lookup_store_same.
  - destruct (negb (has_option c k0)); now apply IH.
Qed.

(** With every default there, the loop changes nothing. *)
Lemma fill_defaults_nothing_missing (defs : list (string * string)) (c : options)
      (updated : bool) :
  (forall key value, In (key, value) defs -> lookup (lower key) c <> None) ->
  fill_defaults defs c updated = (c, updated).
Proof.
  induction defs as [|[k0 v0] defs IH]; intros H; [reflexivity|].
  cbn [fill_defaults]. unfold has_option.
  destruct (lookup (lower k0) c) as [w|] eqn:E; cbn [negb].
  - apply IH. intros key value Hin. apply (H key value). now right.
  - elim (H k0 v0 (or_introl eq_refl) E).
Qed.

(** What [load_and_sync_config] returns is the completed options, with
    the folder name set if it was asked for. *)
Lemma load_returns (file : option options)
      (detected_folder confirm_line custom_line : string)
      (written : option options) (c : options) :
  load_and_sync_config file detected_folder confirm_line custom_line
  = (written, Normal c) ->
  let filled := fst (fill_defaults (defaults detected_folder)
                       (match file with Some f => f | None => [] end) false) in
  (needs_setup filled = false /\ c = filled)
  \/ (needs_setup filled = true /\ written = Some c /\
      exists name, c = set filled "LocalFolderName" name).
Proof.
  unfold load_and_sync_config.
  destruct (fill_defaults (defaults detected_folder)
              (match file with Some f => f | None => [] end) false)
    as [filled updated]. cbn [fst].
  destruct (needs_setup filled).
  - destruct (lower confirm_line =? "y").
    + intros H. injection H as <- <-. right. repeat split. now eexists.
    + destruct (PyStr.truthy (PyStr.strip custom_line)); [|discriminate].
      intros H. injection H as <- <-. right. repeat split. now eexists.
  - intros H. injection H as _ <-. now left.
Qed.

End ConfigFacts.

(** X17.  When [load_and_sync_config] returns, every option of the
    defaults has a value, and an option that the settings file already
    held keeps the value of the file - but the folder name when it still
    was [CHANGE_ME]. *)
Theorem settings_complete_and_preserved :
  forall (file : option Config.options)
         (detected_folder confirm_line custom_line : string)
         (written : option Config.options) (c : Config.options),
    Config.load_and_sync_config file detected_folder confirm_line custom_line
    = (written, Normal c) ->
    (forall key value,
        In (key, value) (Config.defaults detected_folder) ->
        Config.get c key <> None)
    /\ (forall f key value,
           file = Some f ->
           Config.lookup key f = Some value ->
           key <> Config.lower "LocalFolderName" \/ value <> "CHANGE_ME" ->
           Config.lookup key c = Some value).
Proof.
  intros file detected confirm custom written c H.
  apply load_returns in H. cbv zeta in H.
  destruct H as [[Hs ->] | (Hs & _ & name & ->)]; split.
  - intros key value Hin. now apply (fill_defaults_complete _ _ _ key value).
  - intros f key value -> Hl _. now apply fill_defaults_keeps.
  - intros key value Hin. unfold Config.get, Config.set.
    apply store_keeps_present. now apply (fill_defaults_complete _ _ _ key value).
  - intros f key value -> Hl Hne.
    pose proof (fill_defaults_keeps (Config.defaults detected) f false key value Hl)
      as Hk.
    unfold Config.set.
    destruct (String.eqb_spec key (Config.lower "LocalFolderName")) as [->|Hkey].
    + exfalso. unfold Config.needs_setup, Config.get in Hs. rewrite Hk in Hs.
      apply String.eqb_eq in Hs. destruct Hne as [Hne|Hne]; now elim Hne.
    + now rewrite lookup_store_other.
Qed.

Lemma settings_complete_and_preserved_witness :
  Config.get (Config.set
                (fst (Config.fill_defaults (Config.defaults "proj")
                        [("devbranch", "develop")] false))
                "LocalFolderName" "proj")
             "ReleaseBranch" <> None.
Proof.
  apply (proj1 (settings_complete_and_preserved
                  (Some [("devbranch", "develop")]) "proj" "Y" ""
                  (Some (Config.set
                           (fst (Config.fill_defaults (Config.defaults "proj")
                                   [("devbranch", "develop")] false))
                           "LocalFolderName" "proj"))
                  (Config.set
                     (fst (Config.fill_defaults (Config.defaults "proj")
                             [("devbranch", "develop")] false))
                     "LocalFolderName" "proj")
                  eq_refl) "ReleaseBranch" "master").
  cbn. tauto.
Defined.

(** X18.  Loading the settings is idempotent: once it has returned with
    a folder name other than [CHANGE_ME], loading the options it returned
    asks nothing, writes nothing and returns the same options. *)
Theorem settings_load_idempotent :
  forall (file : option Config.options)
         (detected_folder confirm_line custom_line : string)
         (written : option Config.options) (c : Config.options)
         (detected_folder' confirm_line' custom_line' : string),
    Config.load_and_sync_config file detected_folder confirm_line custom_line
    = (written, Normal c) ->
    Config.get c "LocalFolderName" <> Some "CHANGE_ME" ->
    Config.load_and_sync_config (Some c) detected_folder' confirm_line' custom_line'
    = (None, Normal c).
Proof.
  intros file detected confirm custom written c detected' confirm' custom' H Hname.
  assert (Hall : forall key value,
             In (key, value) (Config.defaults detected') ->
             Config.lookup (Config.lower key) c <> None).
  { intros key value Hin.
    assert (Hin' : exists value', In (key, value') (Config.defaults detected)).
    { cbn in Hin |- *.
      repeat (destruct Hin as [E|Hin];
              [injection E as <- _; eexists; tauto|]).
      destruct Hin. }
    destruct Hin' as [value' Hin'].
    apply load_returns in H. cbv zeta in H.
    destruct H as [[_ ->] | (_ & _ & name & ->)].
    - now apply (fill_defaults_complete _ _ _ key value').
    - unfold Config.set. apply store_keeps_present.
      now apply (fill_defaults_complete _ _ _ key value'). }
  unfold Config.load_and_sync_config.
  rewrite (fill_defaults_nothing_missing _ _ _ Hall).
  assert (Hs : Config.needs_setup c = false).
  { unfold Config.needs_setup.
    destruct (Config.get c "LocalFolderName") as [v|]; [|reflexivity].
    apply String.eqb_neq. intros ->. now elim Hname. }
  now rewrite Hs.
Qed.

Lemma settings_load_idempotent_witness :
  Config.load_and_sync_config
    (Some (Config.set
             (fst (Config.fill_defaults (Config.defaults "proj") [] false))
             "LocalFolderName" "proj"))
    "elsewhere" "n" ""
  = (None,
     Normal (Config.set
               (fst (Config.fill_defaults (Config.defaults "proj") [] false))
               "LocalFolderName" "proj")).
Proof.
  apply (settings_load_idempotent None "proj" "y" ""
           (Some (Config.set
                    (fst (Config.fill_defaults (Config.defaults "proj") [] false))
                    "LocalFolderName" "proj"))
           (Config.set
              (fst (Config.fill_defaults (Config.defaults "proj") [] false))
              "LocalFolderName" "proj")
           "elsewhere" "n" "").
  - reflexivity.
  - vm_compute. discriminate.
Defined.

(** X19.  On a first run - no settings file, or one whose folder name is
    [CHANGE_ME] - an operator who does not confirm the detected folder and
    types no name ends the program with status 1, and nothing is written:
    the defaults that were filled in are not saved. *)
Theorem settings_setup_aborted :
  forall (file : option Config.options)
         (detected_folder confirm_line custom_line : string),
    (file = None
     \/ exists f, file = Some f /\ Config.get f "LocalFolderName" = Some "CHANGE_ME") ->
    Config.lower confirm_line <> "y" ->
    all_space custom_line = true ->
    Config.load_and_sync_config file detected_folder confirm_line custom_line
    = (None, Exit 1).
Proof.
  intros file detected confirm custom Hfile Hconfirm Hcustom.
  unfold Config.load_and_sync_config.
  destruct (Config.fill_defaults (Config.defaults detected)
              (match file with Some f => f | None => [] end) false)
    as [filled updated] eqn:E.
  assert (Hs : Config.needs_setup filled = true).
  { destruct Hfile as [-> | (f & -> & Hf)].
    - replace filled with (fst (Config.fill_defaults (Config.defaults detected) [] false))
        by now rewrite E.
      vm_compute. reflexivity.
    - unfold Config.needs_setup, Config.get in *.
      replace filled with (fst (Config.fill_defaults (Config.defaults detected) f false))
        by now rewrite E.
      now rewrite (fill_defaults_keeps _ _ _ _ _ Hf). }
  rewrite Hs. apply String.eqb_neq in Hconfirm. rewrite Hconfirm.
  now rewrite (strip_all_space _ Hcustom).
Qed.

Lemma settings_setup_aborted_witness :
  Config.load_and_sync_config None "proj" "no" "  " = (None, Exit 1).
Proof.
  apply (settings_setup_aborted None "proj" "no" "  ").
  - now left.
  - vm_compute. discriminate.
  - reflexivity.
Defined.

(* ------------------------------------------------------------------ *)
(** ** More on the archive and the release                             *)
(* ------------------------------------------------------------------ *)

(** X20.  A local whitelisted archive that is reported as a success
    holds no path that contains [.git] and no file named like itself:
    its members are the paths of files of the walk with neither
    property. *)
Theorem local_archive_has_no_git :
  forall (re_match : string -> string -> option bool) (name : string)
         (rules : list string) (sep : ascii) (files : list walked)
         (before : option (list string)) (can_create : bool),
    logged (create_backup re_match name "LOCAL_ZIP" rules sep files before can_create)
    = ("INFO", "Archive SUCCESS") ->
    exists kept,
      zip_file (create_backup re_match name "LOCAL_ZIP" rules sep files before can_create)
      = Some (map (rel_path sep) kept)
      /\ forall f, In f kept ->
           In f files
           /\ PyStr.contains ".git" (match_path sep f) = false
           /\ w_file f <> name.
Proof.
  intros re_match name rules sep files before can_create H.
  pose proof (create_backup_success_members re_match name "LOCAL_ZIP" rules sep files
                before can_create H) as E.
  exists (filter (archived_by re_match name "LOCAL_ZIP" rules sep) files).
  split; [exact E|].
  intros f Hf. apply filter_In in Hf as [Hin Ha].
  split; [exact Hin|]. split; [|now apply (archived_by_not_self _ _ _ _ _ _ Ha)].
  unfold archived_by in Ha. apply andb_true_iff in Ha as [_ Ha].
  cbn [String.eqb] in Ha. unfold zip_filter in Ha.
  change ("LOCAL_ZIP" =? "LOCAL_ZIP") with true in Ha. cbv iota in Ha.
  destruct (PyStr.contains ".git" (match_path sep f)); [discriminate | reflexivity].
Qed.

Lemma local_archive_has_no_git_witness :
  exists kept,
    zip_file (create_backup Re.re_match "backup.zip" "LOCAL_ZIP" [".*"] "/"%char
                [mk_walked [".git"] "config" true; mk_walked [] ".gitignore" true;
                 mk_walked [] "notes.md" true] None true)
    = Some (map (rel_path "/"%char) kept)
    /\ forall f, In f kept ->
         In f [mk_walked [".git"] "config" true; mk_walked [] ".gitignore" true;
               mk_walked [] "notes.md" true]
         /\ PyStr.contains ".git" (match_path "/"%char f) = false
         /\ w_file f <> "backup.zip".
Proof.
  apply (local_archive_has_no_git Re.re_match "backup.zip" [".*"] "/"%char
           [mk_walked [".git"] "config" true; mk_walked [] ".gitignore" true;
            mk_walked [] "notes.md" true] None true).
  vm_compute. reflexivity.
Defined.

(** X21.  [generate_changelog] never stops the run and runs two commands
    whatever they return: [git describe], then [git log].  When there is
    no tag - [git describe] fails or prints nothing - the log is the one
    of the last five commits; otherwise it starts at the tag.  What it
    returns is never empty. *)
Theorem generate_changelog_commands :
  forall (env : environment) (cfg : settings) (version : string) (h : list event),
    let tag_res := sh env h "git describe --tags --abbrev=0" in
    exists evs commits log_cmd rc,
      generate_changelog env cfg version h = ((h ++ evs)%list, Normal commits)
      /\ commands evs
         = [("git describe --tags --abbrev=0", returncode tag_res); (log_cmd, rc)]
      /\ commits <> ""
      /\ (returncode tag_res <> 0 \/ PyStr.strip (stdout tag_res) = "" ->
          log_cmd = "git log -n 5 --pretty=format:" ++ dq ++ "- %s" ++ dq)
      /\ (returncode tag_res = 0 /\ PyStr.strip (stdout tag_res) <> "" ->
          log_cmd = "git log " ++ PyStr.strip (stdout tag_res)
                      ++ "..HEAD --pretty=format:" ++ dq ++ "- %s" ++ dq).
Proof.
  intros env cfg version h tag_res.
  unfold generate_changelog, bind, subprocess_run, ask, ret, emit.
  cbv zeta. fold tag_res.
  match goal with
  | |- context [changelog_write ?v ?d (commits_of ?s) ?doc] =>
      destruct (changelog_write v d (commits_of s) doc) as [text|];
      cbn [fst snd];
      (eexists; exists (commits_of s); eexists; eexists;
       split; [rewrite <- ?app_assoc; reflexivity|];
       split; [reflexivity|];
       split; [apply commits_of_nonempty|])
  end.
  all: split.
  all: try (intros [Hrc | Hout];
            [ destruct (returncode tag_res); [now elim Hrc | reflexivity]
            | destruct (returncode tag_res =? 0)%nat;
              [now rewrite (truthy_empty _ Hout) | reflexivity] ]).
  all: intros [Hrc Hout]; rewrite Hrc; cbn [Nat.eqb];
    now rewrite (truthy_nonempty _ Hout).
Qed.

Lemma generate_changelog_commands_witness :
  exists evs commits log_cmd rc,
    generate_changelog quiet_env sample_cfg "2.3.1" [] = (([] ++ evs)%list, Normal commits)
    /\ commands evs
       = [("git describe --tags --abbrev=0",
           returncode (sh quiet_env [] "git describe --tags --abbrev=0"));
          (log_cmd, rc)]
    /\ commits <> ""
    /\ (returncode (sh quiet_env [] "git describe --tags --abbrev=0") <> 0
        \/ PyStr.strip (stdout (sh quiet_env [] "git describe --tags --abbrev=0")) = "" ->
        log_cmd = "git log -n 5 --pretty=format:" ++ dq ++ "- %s" ++ dq)
    /\ (returncode (sh quiet_env [] "git describe --tags --abbrev=0") = 0
        /\ PyStr.strip (stdout (sh quiet_env [] "git describe --tags --abbrev=0")) <> "" ->
        log_cmd = "git log "
                    ++ PyStr.strip (stdout (sh quiet_env []
                                              "git describe --tags --abbrev=0"))
                    ++ "..HEAD --pretty=format:" ++ dq ++ "- %s" ++ dq).
Proof.
  exact (generate_changelog_commands quiet_env sample_cfg "2.3.1" []).
Defined.

Ltac clean_steps :=
  repeat first
    [ apply only_ret
    | apply only_ask
    | apply only_sys_exit
    | apply only_raise
    | apply only_emit; exact I
    | apply only_subprocess_run; intros; reflexivity
    | apply only_check_run; [intros; reflexivity | intros; exact I]
    | apply only_bind; [|intros ?]
    | match goal with
      | |- only _ (if ?b then _ else _) => destruct b
      | |- only _ (match ?x with _ => _ end) => destruct x
      end ].

Section CleanStatus.

Variable re_match : string -> string -> option bool.
Variable re_sub : string -> string -> string -> string.
Variable format_name : string -> name_fields -> option string.
Variable env : environment.
Variable cfg : settings.

(** What follows a command may depend on what the command printed. *)
Lemma only_subprocess_bind {B : Type} (ok : event -> Prop) (cmd : string)
      (k : cmd_result -> proc B) :
  (forall rc, ok (Ran cmd rc)) ->
  (forall h, only ok (k (sh env h cmd))) ->
  only ok (bind (subprocess_run env cmd) k).
Proof.
  intros Hr Hk h. unfold bind, subprocess_run. cbv zeta.
  destruct (Hk h (h ++ [Ran cmd (returncode (sh env h cmd))])%list) as (evs & E & F).
  exists (Ran cmd (returncode (sh env h cmd)) :: evs). split.
  - rewrite E, <- app_assoc. reflexivity.
  - constructor; [apply Hr | exact F].
Qed.

(** [git status --porcelain] prints nothing, whenever it is run. *)
Hypothesis clean :
  forall h, PyStr.strip (stdout (sh env h "git status --porcelain")) = "".

Lemma only_generate_changelog_clean (version : string) :
  only no_metadata_commit (generate_changelog env cfg version).
Proof.
  unfold generate_changelog.
  apply only_bind; [apply only_subprocess_run; intros; reflexivity | intros tag_res].
  cbv zeta.
  destruct (PyStr.truthy (if (returncode tag_res =? 0)%nat
                          then PyStr.strip (stdout tag_res) else "")).
  - apply only_bind; [apply only_subprocess_run; intros; reflexivity | intros r].
    clean_steps.
  - apply only_bind; [apply only_subprocess_run; intros; reflexivity | intros r].
    clean_steps.
Qed.

Lemma only_flatten_clean (version : string) (is_deploy : bool) :
  only no_metadata_commit
       (flatten re_match re_sub format_name env cfg version is_deploy).
Proof.
  unfold flatten.
  apply only_bind; [unfold verify_env, get_current_branch; clean_steps | intros _].
  apply only_bind; [apply only_generate_changelog_clean | intros notes].
  apply only_bind; [apply only_ask | intros readme].
  apply only_bind; [destruct readme; clean_steps | intros _].
  apply only_bind; [clean_steps | intros _].
  apply only_subprocess_bind; [intros; reflexivity | intros h].
  rewrite clean. cbn [PyStr.truthy].
  apply only_bind; [apply only_ret | intros _].
  apply only_bind.
  { unfold create_backup_run, get_current_branch, log_and_print. clean_steps. }
  intros _. unfold apply_whitelist_run. clean_steps.
Qed.

Lemma only_finish_clean (version notes : string) (is_deploy : bool) :
  only no_metadata_commit (finish re_sub env cfg version notes is_deploy).
Proof.
  unfold finish.
  apply only_bind; [clean_steps | intros _].
  apply only_bind; [clean_steps | intros _].
  apply only_bind; [destruct is_deploy; clean_steps | intros _].
  apply only_bind; [clean_steps | intros _].
  apply only_bind; [clean_steps | intros _].
  apply only_subprocess_bind; [intros; reflexivity | intros h].
  rewrite clean. cbn [PyStr.truthy]. clean_steps.
Qed.

Lemma only_handle_master_sync_clean (version : string) (auto is_deploy : bool) :
  only no_metadata_commit
       (handle_master_sync re_match re_sub format_name env cfg version auto is_deploy).
Proof.
  unfold handle_master_sync.
  apply only_bind; [apply only_flatten_clean | intros notes].
  apply only_bind; [|intros _; apply only_finish_clean].
  destruct is_deploy; unfold push_deploy, push_update; clean_steps.
Qed.

End CleanStatus.

(** X22.  The commits of metadata are made only when something changed:
    in a release during which [git status --porcelain] never reports a
    change, no commit with a message [v... | ...] is issued - neither the
    metadata update nor the synchronisation back to the development
    branch - while the release and update commits, which allow an empty
    commit, do not depend on it. *)
Theorem clean_status_no_metadata_commit :
  forall (re_match : string -> string -> option bool)
         (re_sub : string -> string -> string -> string)
         (format_name : string -> name_fields -> option string)
         (env : environment) (cfg : settings)
         (version : string) (auto is_deploy : bool) (h : list event),
    (forall h', PyStr.strip (stdout (sh env h' "git status --porcelain")) = "") ->
    exists evs,
      fst (handle_master_sync re_match re_sub format_name env cfg version auto
                              is_deploy h) = (h ++ evs)%list
      /\ forall cmd rc, In (Ran cmd rc) evs ->
           PyStr.startswith ("git commit -m " ++ dq ++ "v") cmd = false.
Proof.
  intros re_match re_sub format_name env cfg version auto is_deploy h Hclean.
  destruct (only_handle_master_sync_clean re_match re_sub format_name env cfg
              Hclean version auto is_deploy h) as (evs & E & F).
  exists evs. split; [exact E|].
  rewrite Forall_forall in F. intros cmd rc Hin. exact (F _ Hin).
Qed.

Lemma clean_status_no_metadata_commit_witness :
  exists evs,
    fst (handle_master_sync Re.re_match (fun _ _ s => s) (fun t _ => Some t)
                            quiet_env sample_cfg "2.3.1" true false [])
    = ([] ++ evs)%list
    /\ forall cmd rc, In (Ran cmd rc) evs ->
         PyStr.startswith ("git commit -m " ++ dq ++ "v") cmd = false.
Proof.
  apply (clean_status_no_metadata_commit Re.re_match (fun _ _ s => s) (fun t _ => Some t)
           quiet_env sample_cfg "2.3.1" true false []).
  intros h'. reflexivity.
Defined.
